(** * The EDPR model driver: [solve_EDPRmodel] and its rate function [dkdt]

    A shallow embedding of [solve_EDPRmodel.py], and of the script
    [example_simulation.py] that calls it.

    - Python floats are IEEE binary64 numbers: they are Rocq's primitive
      floats, with the same rounding and the same comparisons ([nan]
      compares false with everything).
    - The model class [EDPRmodel], the injector [somatic_injection_current]
      and scipy's [solve_ivp] are imported by the driver and are not part of
      it.  A call to one of them is a node of a program tree ([prog]); what
      the call answers, whether it raises and whether it touches some state
      is decided by a handler, under which the tree is run ([run]).  The
      answers have the shape under which the driver unpacks them: twenty
      rates from [dkdt()], six from [dmdt()], a pair from the injector.
    - The state vector [k] and the rate vector are lists; unpacking a list
      of the wrong length raises [ValueError].
    - For what an evaluation of [dkdt] does to the state that it shares
      with other evaluations, its statements are also executed one by one
      on an explicit store ([Python]): the cells of its closure, the heap
      that holds [k], and a frame of its own. *)

From Stdlib Require Import Floats List ZArith Bool Lia String.
From Stdlib Require Import FunctionalExtensionality.
Import ListNotations.

Set Warnings "-inexact-float,-register-all".
Set Implicit Arguments.

Open Scope string_scope.
Open Scope float_scope.

(** ** Exceptions and results *)

Inductive exn : Type :=
| ValueError
| ParameterValidityError
| OtherError (name : string).

Inductive result (A : Type) : Type :=
| Ok (a : A)
| Err (e : exn).

Arguments Ok {A} a.
Arguments Err {A} e.

(** ** Programs over external calls *)

Section Programs.

Variable E : Type -> Type.

Inductive prog (A : Type) : Type :=
| Ret (a : A)
| Raise (e : exn)
| Call (X : Type) (c : E X) (k : X -> prog A).

Arguments Ret {A} a.
Arguments Raise {A} e.
Arguments Call {A X} c k.

Fixpoint bind {A B : Type} (p : prog A) (f : A -> prog B) : prog B :=
  match p with
  | Ret a => f a
  | Raise e => Raise e
  | Call c k => Call c (fun x => bind (k x) f)
  end.

Definition call {X : Type} (c : E X) : prog X := Call c (fun x => Ret x).

(** Some execution of the program reaches a call that satisfies [P]. *)
Fixpoint reaches (P : forall X, E X -> Prop) {A : Type} (p : prog A) : Prop :=
  match p with
  | Ret _ | Raise _ => False
  | Call c k => P _ c \/ exists x, reaches P (k x)
  end.

(** Every call that an execution of the program can make satisfies [P]. *)
Fixpoint every_call (P : forall X, E X -> Prop) {A : Type} (p : prog A) : Prop :=
  match p with
  | Ret _ | Raise _ => True
  | Call c k => P _ c /\ forall x, every_call P (k x)
  end.

(** Some execution of the program ends in the program itself raising [e]
    (and not a call that it makes). *)
Fixpoint raises (e : exn) {A : Type} (p : prog A) : Prop :=
  match p with
  | Ret _ => False
  | Raise e' => e' = e
  | Call c k => exists x, raises e (k x)
  end.

(** *** Running a program under a handler

    A handler answers each call in a world [W]: it returns a value or
    raises, and leaves a new world. *)

Section Run.

Variable W : Type.

Definition handler : Type := forall X, E X -> W -> result X * W.

Variable h : handler.

Fixpoint run {A : Type} (p : prog A) (w : W) : result A * W :=
  match p with
  | Ret a => (Ok a, w)
  | Raise e => (Err e, w)
  | Call c k =>
      match h c w with
      | (Ok x, w') => run (k x) w'
      | (Err e, w') => (Err e, w')
      end
  end.

(** A call is pure under [h] when its outcome does not depend on the world
    and the world is left as it was. *)
Definition pure_call {X : Type} (c : E X) : Prop :=
  exists r : result X, forall w, h c w = (r, w).

Definition pure_handler : Prop := forall X (c : E X), pure_call c.

(** Under [h] no call raises. *)
Definition answers_all : Prop :=
  forall X (c : E X) w, exists x w', h c w = (Ok x, w').

(** A sequence of evaluations, one after the other in the same world: the
    outcome of each, and the world left at the end. *)
Fixpoint run_all {A : Type} (ps : list (prog A)) (w : W) : list (result A) * W :=
  match ps with
  | [] => ([], w)
  | p :: rest =>
      let (r, w1) := run p w in
      let (rs, w2) := run_all rest w1 in
      (r :: rs, w2)
  end.

End Run.

End Programs.

Arguments Ret {E A} a.
Arguments Raise {E A} e.
Arguments Call {E A X} c k.
Arguments call {E X} c.

Notation "x <- p ;; q" := (bind p (fun x => q))
  (at level 61, p at next level, right associativity).
Notation "' pat <- p ;; q" := (bind p (fun x => match x with pat => q end))
  (at level 61, pat pattern, p at next level, right associativity).

(** Python's [x > y] on floats. *)
Definition gtb (x y : float) : bool := y <? x.

Notation "x >? y" := (gtb x y) (at level 70, no associativity) : float_scope.

(** Two floats are the same number: equal as Python's [==] has it (so that
    [0.0] and [-0.0] are), or both [nan]. *)
Definition same_number (x y : float) : bool :=
  (x =? y) || (is_nan x && is_nan y).

(** Two outcomes are the same: the same error, or rate vectors with the
    same numbers, and the same world. *)
Definition same_outcome (W : Type) (r1 r2 : result (list float) * W) : Prop :=
  snd r1 = snd r2
  /\ match fst r1, fst r2 with
     | Ok l1, Ok l2 => Forall2 (fun x y => same_number x y = true) l1 l2
     | Err e1, Err e2 => e1 = e2
     | _, _ => False
     end.

(** ** The constants of [solve_EDPRmodel] *)

Definition T : float := 309.14.

Definition Na_si0 : float := 18.
Definition Na_se0 : float := 140.
Definition K_si0 : float := 99.
Definition K_se0 : float := 4.3.
Definition Cl_si0 : float := 7.
Definition Cl_se0 : float := 134.
Definition Ca_si0 : float := 0.01.
Definition Ca_se0 : float := 1.1.

Definition Na_di0 : float := 18.
Definition Na_de0 : float := 140.
Definition K_di0 : float := 99.
Definition K_de0 : float := 4.3.
Definition Cl_di0 : float := 7.
Definition Cl_de0 : float := 134.
Definition Ca_di0 : float := 0.01.
Definition Ca_de0 : float := 1.1.

Definition res_i : float := -68e-3*3e-2*616e-12/(1437e-18*9.648e4).
Definition res_e : float := -68e-3*3e-2*616e-12/(718.5e-18*9.648e4).

Definition X_si0 : float := Na_si0 + K_si0 - Cl_si0 + 2*Ca_si0 - res_i.
Definition X_se0 : float := Na_se0 + K_se0 - Cl_se0 + 2*Ca_se0 + res_e.
Definition X_di0 : float := Na_di0 + K_di0 - Cl_di0 + 2*Ca_di0 - res_i.
Definition X_de0 : float := Na_de0 + K_de0 - Cl_de0 + 2*Ca_de0 + res_e.

Definition n0 : float := 0.0003.
Definition h0 : float := 0.999.
Definition s0 : float := 0.007.
Definition c0 : float := 0.006.
Definition q0 : float := 0.011.
Definition z0 : float := 1.0.

Definition k0 : list float :=
  [Na_si0; Na_se0; Na_di0; Na_de0; K_si0; K_se0; K_di0; K_de0;
   Cl_si0; Cl_se0; Cl_di0; Cl_de0; Ca_si0; Ca_se0; Ca_di0; Ca_de0;
   X_si0; X_se0; X_di0; X_de0; n0; h0; s0; c0; q0; z0].

(** ** Tuples returned by the collaborators *)

Definition tuple6 : Type := float * float * float * float * float * float.
Definition tuple8 : Type :=
  float * float * float * float * float * float * float * float.
Definition tuple20 : Type :=
  float * float * float * float * float * float * float * float * float * float
  * float * float * float * float * float * float * float * float * float * float.

(** ** The names of the state variables *)

Module Var.

Inductive species : Type := Na | K | Cl | Ca | X.
Inductive compartment : Type := si | se | di | de.
Inductive gate : Type := n | h | s | c | q | z.

Inductive t : Type :=
| conc (sp : species) (cp : compartment)
| gating (g : gate).

End Var.

(** The order of the state vector: species by compartment, then the gates. *)
Definition state_order : list Var.t :=
  flat_map (fun sp => map (Var.conc sp) [Var.si; Var.se; Var.di; Var.de])
    [Var.Na; Var.K; Var.Cl; Var.Ca; Var.X]
  ++ map Var.gating [Var.n; Var.h; Var.s; Var.c; Var.q; Var.z].

(** [l] with the component at position [i] replaced by [x]. *)
Fixpoint update (l : list float) (i : nat) (x : float) : list float :=
  match l, i with
  | [], _ => []
  | _ :: rest, O => x :: rest
  | y :: rest, S j => y :: update rest j x
  end.

(** ** The driver *)

Section Driver.

(** Instances of the class [EDPRmodel], and the result object of scipy's
    [solve_ivp] with its attribute [y] (one row per state variable). *)
Variable Cell : Type.
Variable OdeResult : Type.
Variable sol_y : OdeResult -> list (list float).

(** The calls that one rate evaluation makes: the constructor of the model
    class with its thirty positional arguments, the two rate methods of an
    instance, and the injector. *)
Inductive model_call : Type -> Type :=
| EDPRmodel
    (T Na_si Na_se Na_di Na_de K_si K_se K_di K_de Cl_si Cl_se Cl_di Cl_de
       Ca_si Ca_se Ca_di Ca_de X_si X_se X_di X_de alpha Ca0_si Ca0_di
       n h s c q z : float) : model_call Cell
| cell_dkdt (cell : Cell) : model_call tuple20
| cell_dmdt (cell : Cell) : model_call tuple6
| somatic_injection_current
    (neuron : Cell) (dkdt_si dkdt_se Z I_stim : float) : model_call (float * float).

(** [dkdt(t, k)], nested in [solve_EDPRmodel]: [alpha], [I_stim],
    [stim_start] and [stim_end] are the enclosing function's arguments. *)
Definition dkdt (alpha I_stim stim_start stim_end : float)
    (t : float) (k : list float) : prog model_call (list float) :=
  match k with
  | [Na_si; Na_se; Na_di; Na_de; K_si; K_se; K_di; K_de;
     Cl_si; Cl_se; Cl_di; Cl_de; Ca_si; Ca_se; Ca_di; Ca_de;
     X_si; X_se; X_di; X_de; n; h; s; c; q; z] =>
      my_cell <- call (EDPRmodel T Na_si Na_se Na_di Na_de K_si K_se K_di K_de
                         Cl_si Cl_se Cl_di Cl_de Ca_si Ca_se Ca_di Ca_de
                         X_si X_se X_di X_de alpha Ca_si0 Ca_di0 n h s c q z) ;;
      '(dNadt_si, dNadt_se, dNadt_di, dNadt_de, dKdt_si, dKdt_se, dKdt_di, dKdt_de,
        dCldt_si, dCldt_se, dCldt_di, dCldt_de, dCadt_si, dCadt_se, dCadt_di, dCadt_de,
        dresdt_si, dresdt_se, dresdt_di, dresdt_de) <- call (cell_dkdt my_cell) ;;
      '(dndt, dhdt, dsdt, dcdt, dqdt, dzdt) <- call (cell_dmdt my_cell) ;;
      '(dKdt_si, dKdt_se) <-
         (if (t >? stim_start) && (t <? stim_end)
          then call (somatic_injection_current my_cell dKdt_si dKdt_se 1.0 I_stim)
          else Ret (dKdt_si, dKdt_se)) ;;
      Ret [dNadt_si; dNadt_se; dNadt_di; dNadt_de; dKdt_si; dKdt_se; dKdt_di; dKdt_de;
           dCldt_si; dCldt_se; dCldt_di; dCldt_de; dCadt_si; dCadt_se; dCadt_di; dCadt_de;
           dresdt_si; dresdt_se; dresdt_di; dresdt_de; dndt; dhdt; dsdt; dcdt; dqdt; dzdt]
  | _ => Raise ValueError
  end.

(** The calls of [solve_EDPRmodel] itself: those of the model, the
    diagnostic methods and the attributes of the initial cell, and the
    integrator, which is handed the rate function. *)
Inductive driver_call : Type -> Type :=
| model (X : Type) (c : model_call X) : driver_call X
| membrane_potentials (cell : Cell) : driver_call tuple6
| reversal_potentials (cell : Cell) : driver_call tuple8
| getattr (cell : Cell) (name : string) : driver_call float
| total_charge (cell : Cell) (k : list float) (V : float) : driver_call float
| solve_ivp
    (f : float -> list float -> prog model_call (list float))
    (t_span : float * float) (y0 : list float) (max_step : float) :
    driver_call OdeResult.

(** The attributes of a cell named in a list, read from left to right. *)
Fixpoint getattrs (cell : Cell) (names : list string) : prog driver_call (list float) :=
  match names with
  | [] => Ret []
  | name :: rest =>
      x <- call (getattr cell name) ;;
      xs <- getattrs cell rest ;;
      Ret (x :: xs)
  end.

(** [init_cell.total_charge([init_cell.a, ...], init_cell.V)] *)
Definition charge (init_cell : Cell) (names : list string) (V : string) :
    prog driver_call float :=
  ks <- getattrs init_cell names ;;
  vol <- call (getattr init_cell V) ;;
  call (total_charge init_cell ks vol).

(** [solve_EDPRmodel(t_dur, alpha, I_stim, stim_start, stim_end)] *)
Definition solve_EDPRmodel (t_dur alpha I_stim stim_start stim_end : float) :
    prog driver_call OdeResult :=
  (* print initial values *)
  init_cell <- call (model (EDPRmodel T Na_si0 Na_se0 Na_di0 Na_de0 K_si0 K_se0 K_di0 K_de0
                              Cl_si0 Cl_se0 Cl_di0 Cl_de0 Ca_si0 Ca_se0 Ca_di0 Ca_de0
                              X_si0 X_se0 X_di0 X_de0 alpha Ca_si0 Ca_di0
                              n0 h0 s0 c0 q0 z0)) ;;
  '(phi_si, phi_se, phi_di, phi_de, phi_sm, phi_dm) <-
     call (membrane_potentials init_cell) ;;
  '(E_Na_s, E_Na_d, E_K_s, E_K_d, E_Cl_s, E_Cl_d, E_Ca_s, E_Ca_d) <-
     call (reversal_potentials init_cell) ;;
  q_si <- charge init_cell ["Na_si"; "K_si"; "Cl_si"; "Ca_si"; "X_si"] "V_si" ;;
  q_se <- charge init_cell ["Na_se"; "K_se"; "Cl_se"; "Ca_se"; "X_se"] "V_se" ;;
  q_di <- charge init_cell ["Na_di"; "K_di"; "Cl_di"; "Ca_di"; "X_di"] "V_di" ;;
  q_de <- charge init_cell ["Na_de"; "K_de"; "Cl_de"; "Ca_de"; "X_de"] "V_de" ;;
  (* solve *)
  let t_span := (0, t_dur) in
  sol <- call (solve_ivp (dkdt alpha I_stim stim_start stim_end) t_span k0 1e-4) ;;
  match sol_y sol with
  | [Na_si; Na_se; Na_di; Na_de; K_si; K_se; K_di; K_de;
     Cl_si; Cl_se; Cl_di; Cl_de; Ca_si; Ca_se; Ca_di; Ca_de;
     X_si; X_se; X_di; X_de; n; h; s; c; q; z] => Ret sol
  | _ => Raise ValueError
  end.

(** ** Reference definitions and observations *)

(** The rate assembler with its stimulus step left out (steps 1 to 5): the
    evaluation of a run in which the stimulus is disabled entirely. *)
Definition dkdt_unstimulated (alpha : float) (k : list float) :
    prog model_call (list float) :=
  match k with
  | [Na_si; Na_se; Na_di; Na_de; K_si; K_se; K_di; K_de;
     Cl_si; Cl_se; Cl_di; Cl_de; Ca_si; Ca_se; Ca_di; Ca_de;
     X_si; X_se; X_di; X_de; n; h; s; c; q; z] =>
      my_cell <- call (EDPRmodel T Na_si Na_se Na_di Na_de K_si K_se K_di K_de
                         Cl_si Cl_se Cl_di Cl_de Ca_si Ca_se Ca_di Ca_de
                         X_si X_se X_di X_de alpha Ca_si0 Ca_di0 n h s c q z) ;;
      '(dNadt_si, dNadt_se, dNadt_di, dNadt_de, dKdt_si, dKdt_se, dKdt_di, dKdt_de,
        dCldt_si, dCldt_se, dCldt_di, dCldt_de, dCadt_si, dCadt_se, dCadt_di, dCadt_de,
        dresdt_si, dresdt_se, dresdt_di, dresdt_de) <- call (cell_dkdt my_cell) ;;
      '(dndt, dhdt, dsdt, dcdt, dqdt, dzdt) <- call (cell_dmdt my_cell) ;;
      Ret [dNadt_si; dNadt_se; dNadt_di; dNadt_de; dKdt_si; dKdt_se; dKdt_di; dKdt_de;
           dCldt_si; dCldt_se; dCldt_di; dCldt_de; dCadt_si; dCadt_se; dCadt_di; dCadt_de;
           dresdt_si; dresdt_se; dresdt_di; dresdt_de; dndt; dhdt; dsdt; dcdt; dqdt; dzdt]
  | _ => Raise ValueError
  end.

(** The snapshot of a rate evaluation (steps 1 and 2): the state vector is
    unpacked and the model is constructed. *)
Definition snapshot (alpha : float) (k : list float) : prog model_call Cell :=
  match k with
  | [Na_si; Na_se; Na_di; Na_de; K_si; K_se; K_di; K_de;
     Cl_si; Cl_se; Cl_di; Cl_de; Ca_si; Ca_se; Ca_di; Ca_de;
     X_si; X_se; X_di; X_de; n; h; s; c; q; z] =>
      call (EDPRmodel T Na_si Na_se Na_di Na_de K_si K_se K_di K_de
              Cl_si Cl_se Cl_di Cl_de Ca_si Ca_se Ca_di Ca_de
              X_si X_se X_di X_de alpha Ca_si0 Ca_di0 n h s c q z)
  | _ => Raise ValueError
  end.

(** The call is a call of the injector. *)
Definition is_injection (X : Type) (c : model_call X) : Prop :=
  match c with
  | somatic_injection_current _ _ _ _ _ => True
  | _ => False
  end.

(** The injector is handed the rates at positions [i] and [j] of the
    unstimulated rate vector, and what it returns replaces them. *)
Definition injection_pair (i j : nat) (W : Type) (h : handler model_call W)
    (alpha I_stim stim_start stim_end t : float) (k : list float) (w : W) : Prop :=
  forall cell w1 out0 w0,
    run h (snapshot alpha k) w = (Ok cell, w1) ->
    run h (dkdt_unstimulated alpha k) w = (Ok out0, w0) ->
    run h (dkdt alpha I_stim stim_start stim_end t k) w =
      match h _ (somatic_injection_current cell (nth i out0 0) (nth j out0 0) 1.0 I_stim) w0 with
      | (Ok (a, b), w') => (Ok (update (update out0 i a) j b), w')
      | (Err e, w') => (Err e, w')
      end.

(** The value that a constructor call passes for a state variable. *)
Definition passed (v : Var.t) (X : Type) (c : model_call X) : option float :=
  match c with
  | EDPRmodel T Na_si Na_se Na_di Na_de K_si K_se K_di K_de
      Cl_si Cl_se Cl_di Cl_de Ca_si Ca_se Ca_di Ca_de
      X_si X_se X_di X_de alpha Ca0_si Ca0_di n h s c q z =>
      Some match v with
           | Var.conc Var.Na Var.si => Na_si
           | Var.conc Var.Na Var.se => Na_se
           | Var.conc Var.Na Var.di => Na_di
           | Var.conc Var.Na Var.de => Na_de
           | Var.conc Var.K Var.si => K_si
           | Var.conc Var.K Var.se => K_se
           | Var.conc Var.K Var.di => K_di
           | Var.conc Var.K Var.de => K_de
           | Var.conc Var.Cl Var.si => Cl_si
           | Var.conc Var.Cl Var.se => Cl_se
           | Var.conc Var.Cl Var.di => Cl_di
           | Var.conc Var.Cl Var.de => Cl_de
           | Var.conc Var.Ca Var.si => Ca_si
           | Var.conc Var.Ca Var.se => Ca_se
           | Var.conc Var.Ca Var.di => Ca_di
           | Var.conc Var.Ca Var.de => Ca_de
           | Var.conc Var.X Var.si => X_si
           | Var.conc Var.X Var.se => X_se
           | Var.conc Var.X Var.di => X_di
           | Var.conc Var.X Var.de => X_de
           | Var.gating Var.n => n
           | Var.gating Var.h => h
           | Var.gating Var.s => s
           | Var.gating Var.c => c
           | Var.gating Var.q => q
           | Var.gating Var.z => z
           end
  | _ => None
  end.

(** The rate of a state variable, by the names under which [dkdt] unpacks
    what the model returns; [p] is the somatic potassium pair after the
    stimulus step. *)
Definition rate_of (r : tuple20) (m : tuple6) (p : float * float) (v : Var.t) : float :=
  let '(dNadt_si, dNadt_se, dNadt_di, dNadt_de, _, _, dKdt_di, dKdt_de,
        dCldt_si, dCldt_se, dCldt_di, dCldt_de, dCadt_si, dCadt_se, dCadt_di, dCadt_de,
        dresdt_si, dresdt_se, dresdt_di, dresdt_de) := r in
  let '(dndt, dhdt, dsdt, dcdt, dqdt, dzdt) := m in
  let '(dKdt_si, dKdt_se) := p in
  match v with
  | Var.conc Var.Na Var.si => dNadt_si
  | Var.conc Var.Na Var.se => dNadt_se
  | Var.conc Var.Na Var.di => dNadt_di
  | Var.conc Var.Na Var.de => dNadt_de
  | Var.conc Var.K Var.si => dKdt_si
  | Var.conc Var.K Var.se => dKdt_se
  | Var.conc Var.K Var.di => dKdt_di
  | Var.conc Var.K Var.de => dKdt_de
  | Var.conc Var.Cl Var.si => dCldt_si
  | Var.conc Var.Cl Var.se => dCldt_se
  | Var.conc Var.Cl Var.di => dCldt_di
  | Var.conc Var.Cl Var.de => dCldt_de
  | Var.conc Var.Ca Var.si => dCadt_si
  | Var.conc Var.Ca Var.se => dCadt_se
  | Var.conc Var.Ca Var.di => dCadt_di
  | Var.conc Var.Ca Var.de => dCadt_de
  | Var.conc Var.X Var.si => dresdt_si
  | Var.conc Var.X Var.se => dresdt_se
  | Var.conc Var.X Var.di => dresdt_di
  | Var.conc Var.X Var.de => dresdt_de
  | Var.gating Var.n => dndt
  | Var.gating Var.h => dhdt
  | Var.gating Var.s => dsdt
  | Var.gating Var.c => dcdt
  | Var.gating Var.q => dqdt
  | Var.gating Var.z => dzdt
  end.

(** The somatic potassium pair of what the model returns. *)
Definition somatic_K (r : tuple20) : float * float :=
  let '(_, _, _, _, dKdt_si, dKdt_se, _, _, _, _, _, _, _, _, _, _, _, _, _, _) := r in
  (dKdt_si, dKdt_se).

(** The two leak-current baselines that a constructor call passes. *)
Definition baselines (X : Type) (c : model_call X) : option (float * float) :=
  match c with
  | EDPRmodel _ _ _ _ _ _ _ _ _ _ _ _ _ _ _ _ _ _ _ _ _ _ Ca0_si Ca0_di _ _ _ _ _ _ =>
      Some (Ca0_si, Ca0_di)
  | _ => None
  end.

Definition fixed_baselines (X : Type) (c : model_call X) : Prop :=
  forall a b, baselines c = Some (a, b) -> a = 0.01 /\ b = 0.01.

(** Modelled from the spec: the inputs that the constructor of the model,
    which is not part of the driver, is to reject: a temperature or a
    coupling strength at or below zero, or a negative concentration. *)
Definition nonphysical (X : Type) (c : model_call X) : bool :=
  match c with
  | EDPRmodel T Na_si Na_se Na_di Na_de K_si K_se K_di K_de
      Cl_si Cl_se Cl_di Cl_de Ca_si Ca_se Ca_di Ca_de
      X_si X_se X_di X_de alpha _ _ _ _ _ _ _ _ =>
      (T <=? 0) || (alpha <=? 0)
      || existsb (fun x => x <? 0)
           [Na_si; Na_se; Na_di; Na_de; K_si; K_se; K_di; K_de;
            Cl_si; Cl_se; Cl_di; Cl_de; Ca_si; Ca_se; Ca_di; Ca_de;
            X_si; X_se; X_di; X_de]
  | _ => false
  end.

(** Modelled from the spec: a handler under which the constructor rejects
    non-physical inputs with a parameter-validity error. *)
Definition rejects_nonphysical (W : Type) (h : handler driver_call W) : Prop :=
  forall (c : model_call Cell) (w : W),
    nonphysical c = true ->
    exists w', h _ (model c) w = (Err ParameterValidityError, w').

(** The initial cell of [solve_EDPRmodel]. *)
Definition init_cell_call (alpha : float) : model_call Cell :=
  EDPRmodel T Na_si0 Na_se0 Na_di0 Na_de0 K_si0 K_se0 K_di0 K_de0
    Cl_si0 Cl_se0 Cl_di0 Cl_de0 Ca_si0 Ca_se0 Ca_di0 Ca_de0
    X_si0 X_se0 X_di0 X_de0 alpha Ca_si0 Ca_di0 n0 h0 s0 c0 q0 z0.

(** The statements of [solve_EDPRmodel] under its comment "print initial
    values", with nothing kept of what they compute. *)
Definition initial_values (alpha : float) : prog driver_call unit :=
  init_cell <- call (model (init_cell_call alpha)) ;;
  _ <- call (membrane_potentials init_cell) ;;
  _ <- call (reversal_potentials init_cell) ;;
  _ <- charge init_cell ["Na_si"; "K_si"; "Cl_si"; "Ca_si"; "X_si"] "V_si" ;;
  _ <- charge init_cell ["Na_se"; "K_se"; "Cl_se"; "Ca_se"; "X_se"] "V_se" ;;
  _ <- charge init_cell ["Na_di"; "K_di"; "Cl_di"; "Ca_di"; "X_di"] "V_di" ;;
  _ <- charge init_cell ["Na_de"; "K_de"; "Cl_de"; "Ca_de"; "X_de"] "V_de" ;;
  Ret tt.

(** The integration of a rate function [f] from [k0] over [(0, t_dur)], and
    the check that the result has one row per state variable. *)
Definition integrate (f : float -> list float -> prog model_call (list float))
    (t_dur : float) : prog driver_call OdeResult :=
  sol <- call (solve_ivp f (0, t_dur) k0 1e-4) ;;
  match sol_y sol with
  | [Na_si; Na_se; Na_di; Na_de; K_si; K_se; K_di; K_de;
     Cl_si; Cl_se; Cl_di; Cl_de; Ca_si; Ca_se; Ca_di; Ca_de;
     X_si; X_se; X_di; X_de; n; h; s; c; q; z] => Ret sol
  | _ => Raise ValueError
  end.

(** A call of the driver keeps to the fixed baselines: a constructor call
    passes them, and so does every evaluation of the rate function that is
    handed to the integrator. *)
Definition keeps_fixed_baselines (X : Type) (c : driver_call X) : Prop :=
  match c with
  | model c' => fixed_baselines c'
  | solve_ivp f _ _ _ => forall t k, every_call (@fixed_baselines) (f t k)
  | _ => True
  end.

End Driver.

Arguments EDPRmodel {Cell}.
Arguments cell_dkdt {Cell} cell.
Arguments cell_dmdt {Cell} cell.
Arguments somatic_injection_current {Cell} neuron dkdt_si dkdt_se Z I_stim.
Arguments dkdt {Cell} alpha I_stim stim_start stim_end t k.
Arguments dkdt_unstimulated {Cell} alpha k.
Arguments snapshot {Cell} alpha k.
Arguments is_injection {Cell X} c.
Arguments passed {Cell} v {X} c.
Arguments baselines {Cell X} c.
Arguments fixed_baselines {Cell X} c.
Arguments nonphysical {Cell X} c.
Arguments init_cell_call {Cell} alpha.
Arguments model {Cell OdeResult X} c.
Arguments membrane_potentials {Cell OdeResult} cell.
Arguments reversal_potentials {Cell OdeResult} cell.
Arguments getattr {Cell OdeResult} cell name.
Arguments total_charge {Cell OdeResult} cell k V.
Arguments solve_ivp {Cell OdeResult} f t_span y0 max_step.
Arguments keeps_fixed_baselines {Cell OdeResult X} c.
Arguments initial_values {Cell OdeResult} alpha.
Arguments integrate {Cell OdeResult} sol_y f t_dur.
Arguments solve_EDPRmodel {Cell OdeResult} sol_y t_dur alpha I_stim stim_start stim_end.
Arguments injection_pair {Cell} i j {W} h alpha I_stim stim_start stim_end t k w.
Arguments rejects_nonphysical {Cell OdeResult W} h.

(** ** A closed instance of the collaborators

    The theorems below hold for every model, injector and integrator.  To
    evaluate the driver on concrete inputs this instance fixes simple ones:
    a constructor that keeps its arguments and, when [validating], rejects
    non-physical ones; rate methods that return the numbers 1 to 20 and 21
    to 26; an injector that moves [I_stim / Z] from the second rate to the
    first and does nothing at magnitude zero; diagnostic methods and
    attributes that all return [d]; and an integrator that takes one
    explicit Euler step of length [max_step]. *)

Module Fixture.

Definition Cell : Type := list float.

Record OdeResult : Type := { sol_t : list float; sol_y : list (list float) }.

Definition collaborators (validating : bool) : handler (model_call Cell) unit :=
  fun X call w =>
    match call in model_call _ X return result X * unit with
    | EDPRmodel T Na_si Na_se Na_di Na_de K_si K_se K_di K_de
        Cl_si Cl_se Cl_di Cl_de Ca_si Ca_se Ca_di Ca_de
        X_si X_se X_di X_de alpha Ca0_si Ca0_di n h s c q z =>
        if validating && nonphysical call
        then (Err ParameterValidityError, w)
        else (Ok [T; Na_si; Na_se; Na_di; Na_de; K_si; K_se; K_di; K_de;
                  Cl_si; Cl_se; Cl_di; Cl_de; Ca_si; Ca_se; Ca_di; Ca_de;
                  X_si; X_se; X_di; X_de; alpha; Ca0_si; Ca0_di; n; h; s; c; q; z], w)
    | cell_dkdt _ =>
        (Ok (1, 2, 3, 4, 5, 6, 7, 8, 9, 10, 11, 12, 13, 14, 15, 16, 17, 18, 19, 20), w)
    | cell_dmdt _ => (Ok (21, 22, 23, 24, 25, 26), w)
    | somatic_injection_current _ dkdt_si dkdt_se Z I_stim =>
        if I_stim =? 0
        then (Ok (dkdt_si, dkdt_se), w)
        else (Ok (dkdt_si + I_stim / Z, dkdt_se - I_stim / Z), w)
    end.

Definition euler_step (validating : bool)
    (f : float -> list float -> prog (model_call Cell) (list float))
    (t_span : float * float) (y0 : list float) (max_step : float) : result OdeResult :=
  match fst (run (collaborators validating) (f (fst t_span) y0) tt) with
  | Ok dy =>
      Ok {| sol_t := [fst t_span; fst t_span + max_step];
            sol_y := map (fun yd => [fst yd; fst yd + max_step * snd yd]) (combine y0 dy) |}
  | Err e => Err e
  end.

Definition environment (validating : bool) (d : float) :
    handler (driver_call Cell OdeResult) unit :=
  fun X call w =>
    match call in driver_call _ _ X return result X * unit with
    | model c => collaborators validating c w
    | membrane_potentials _ => (Ok (d, d, d, d, d, d), w)
    | reversal_potentials _ => (Ok (d, d, d, d, d, d, d, d), w)
    | getattr _ _ => (Ok d, w)
    | total_charge _ _ _ => (Ok d, w)
    | solve_ivp f t_span y0 max_step => (euler_step validating f t_span y0 max_step, w)
    end.

(** The rate vector of the instance at [t = 15], inside the window
    [(10, 20)], with the stimulus of the example simulation. *)
Definition stimulated_rates : list float :=
  [1; 2; 3; 4; 5 + 28e-12 / 1; 6 - 28e-12 / 1; 7; 8; 9; 10; 11; 12; 13; 14; 15; 16;
   17; 18; 19; 20; 21; 22; 23; 24; 25; 26].

End Fixture.

(** ** Counting calls *)

Section Counting.

Variable E : Type -> Type.

(** Every execution of the program makes exactly [n] calls that satisfy
    [P], unless a call that raises cuts it short. *)
Fixpoint makes (P : forall X, E X -> bool) (n : nat) {A : Type} (p : prog E A) : Prop :=
  match p with
  | Ret _ | Raise _ => n = O
  | Call c k =>
      if P _ c
      then exists m, n = S m /\ forall x, makes P m (k x)
      else forall x, makes P n (k x)
  end.

End Counting.

(** The kinds of calls of a rate evaluation. *)
Definition is_constructor (Cell X : Type) (c : model_call Cell X) : bool :=
  match c with
  | EDPRmodel _ _ _ _ _ _ _ _ _ _ _ _ _ _ _ _ _ _ _ _ _ _ _ _ _ _ _ _ _ _ => true
  | _ => false
  end.

Definition is_injector (Cell X : Type) (c : model_call Cell X) : bool :=
  match c with
  | somatic_injection_current _ _ _ _ _ => true
  | _ => false
  end.

Definition any_call (Cell X : Type) (c : model_call Cell X) : bool := true.

(** The kinds of calls of the driver. *)
Definition is_integrator (Cell OdeResult X : Type) (c : driver_call Cell OdeResult X) : bool :=
  match c with
  | solve_ivp _ _ _ _ => true
  | _ => false
  end.

Definition is_driver_constructor (Cell OdeResult X : Type)
    (c : driver_call Cell OdeResult X) : bool :=
  match c with
  | model c' => is_constructor c'
  | _ => false
  end.

(** ** The example simulation *)

Module ExampleSimulation.

(** Arrays of samples, one per time point, and the tuples of arrays that
    the potentials of a model over arrays are returned in. *)
Definition array : Type := list float.
Definition arrays6 : Type := array * array * array * array * array * array.
Definition arrays8 : Type :=
  array * array * array * array * array * array * array * array.

(** The settings of the script. *)
Definition t_dur : float := 30.
Definition alpha : float := 2.0.
Definition I_stim : float := 28e-12.
Definition stim_start : float := 10.
Definition stim_end : float := 20.

Section Script.

(** Instances of [EDPRmodel] over floats, as in the driver, and over
    arrays, as the script constructs one; the result of the integrator with
    its attributes [y] and [t]; what the calls of pyplot return. *)
Variable Cell : Type.
Variable ArrayCell : Type.
Variable OdeResult : Type.
Variable sol_y : OdeResult -> list array.
Variable sol_t : OdeResult -> array.
Variable Artist : Type.

(** The calls of the script: those of the driver, the clock, the model over
    arrays with its two potential methods, and pyplot. *)
Inductive script_call : Type -> Type :=
| driver (X : Type) (c : driver_call Cell OdeResult X) : script_call X
| time_time : script_call float
| EDPRmodel_arrays
    (T : float)
    (Na_si Na_se Na_di Na_de K_si K_se K_di K_de Cl_si Cl_se Cl_di Cl_de
       Ca_si Ca_se Ca_di Ca_de X_si X_se X_di X_de : array)
    (alpha Ca0_si Ca0_di : float) (n h s c q z : array) : script_call ArrayCell
| membrane_potentials_arrays (cell : ArrayCell) : script_call arrays6
| reversal_potentials_arrays (cell : ArrayCell) : script_call arrays8
| plt_figure (num : nat) : script_call Artist
| plt_plot (x y : array) (fmt label : string) : script_call Artist
| plt_title (label : string) : script_call Artist
| plt_xlabel (xlabel : string) : script_call Artist
| plt_ylabel (ylabel : string) : script_call Artist
| plt_legend (loc : string) : script_call Artist
| plt_show : script_call unit.

(** A program of the driver, run from the script. *)
Fixpoint lift {A : Type} (p : prog (driver_call Cell OdeResult) A) : prog script_call A :=
  match p with
  | Ret a => Ret a
  | Raise e => Raise e
  | Call c k => Call (driver c) (fun x => lift (k x))
  end.

(** [a[0]] *)
Definition first_sample (a : array) : prog script_call float :=
  match a with
  | x :: _ => Ret x
  | [] => Raise (OtherError "IndexError")
  end.

(** [a*1000], sample by sample. *)
Definition times_1000 (a : array) : array := map (fun x => x * 1000) a.

(** Lines 17 to 34 of the script: what it does with the solution. *)
Definition postprocess (sol : OdeResult) : prog script_call unit :=
  match sol_y sol with
  | [Na_si; Na_se; Na_di; Na_de; K_si; K_se; K_di; K_de;
     Cl_si; Cl_se; Cl_di; Cl_de; Ca_si; Ca_se; Ca_di; Ca_de;
     X_si; X_se; X_di; X_de; n; h; s; c; q; z] =>
      let t := sol_t sol in
      Ca_si_0 <- first_sample Ca_si ;;
      Ca_di_0 <- first_sample Ca_di ;;
      my_cell <- call (EDPRmodel_arrays 309.14 Na_si Na_se Na_di Na_de K_si K_se K_di K_de
                         Cl_si Cl_se Cl_di Cl_de Ca_si Ca_se Ca_di Ca_de
                         X_si X_se X_di X_de alpha Ca_si_0 Ca_di_0 n h s c q z) ;;
      '(phi_si, phi_se, phi_di, phi_de, phi_sm, phi_dm) <-
         call (membrane_potentials_arrays my_cell) ;;
      '(E_Na_s, E_Na_d, E_K_s, E_K_d, E_Cl_s, E_Cl_d, E_Ca_s, E_Ca_d) <-
         call (reversal_potentials_arrays my_cell) ;;
      f1 <- call (plt_figure 1) ;;
      _ <- call (plt_plot t (times_1000 phi_sm) "-" "soma") ;;
      _ <- call (plt_plot t (times_1000 phi_dm) "-" "dendrite") ;;
      _ <- call (plt_title "Membrane potentials") ;;
      _ <- call (plt_xlabel "time [s]") ;;
      _ <- call (plt_ylabel "[mV]") ;;
      _ <- call (plt_legend "upper right") ;;
      call plt_show
  | _ => Raise ValueError
  end.

(** The script, from its first statement to its last. *)
Definition example_simulation : prog script_call unit :=
  start_time <- call time_time ;;
  sol <- lift (solve_EDPRmodel sol_y t_dur alpha I_stim stim_start stim_end) ;;
  postprocess sol.

(** The baselines that a constructor call of the script passes. *)
Definition array_baselines (X : Type) (c : script_call X) : option (float * float) :=
  match c with
  | EDPRmodel_arrays _ _ _ _ _ _ _ _ _ _ _ _ _ _ _ _ _ _ _ _ _ _ Ca0_si Ca0_di _ _ _ _ _ _ =>
      Some (Ca0_si, Ca0_di)
  | _ => None
  end.

(** The call is a call of pyplot. *)
Definition is_pyplot (X : Type) (c : script_call X) : Prop :=
  match c with
  | plt_figure _ | plt_plot _ _ _ _ | plt_title _ | plt_xlabel _
  | plt_ylabel _ | plt_legend _ | plt_show => True
  | _ => False
  end.

(** The part of a handler of the script that answers the driver. *)
Definition driver_part (W : Type) (h : handler script_call W) :
    handler (driver_call Cell OdeResult) W :=
  fun X c w => h X (driver c) w.

End Script.

Arguments driver {Cell ArrayCell OdeResult Artist X} c.
Arguments time_time {Cell ArrayCell OdeResult Artist}.
Arguments plt_show {Cell ArrayCell OdeResult Artist}.
Arguments EDPRmodel_arrays {Cell ArrayCell OdeResult Artist}.
Arguments membrane_potentials_arrays {Cell ArrayCell OdeResult Artist} cell.
Arguments reversal_potentials_arrays {Cell ArrayCell OdeResult Artist} cell.
Arguments plt_figure {Cell ArrayCell OdeResult Artist} num.
Arguments plt_plot {Cell ArrayCell OdeResult Artist} x y fmt label.
Arguments plt_title {Cell ArrayCell OdeResult Artist} label.
Arguments plt_xlabel {Cell ArrayCell OdeResult Artist} xlabel.
Arguments plt_ylabel {Cell ArrayCell OdeResult Artist} ylabel.
Arguments plt_legend {Cell ArrayCell OdeResult Artist} loc.
Arguments lift {Cell} ArrayCell {OdeResult} Artist {A} p.
Arguments postprocess Cell ArrayCell {OdeResult} sol_y sol_t Artist sol.
Arguments example_simulation Cell ArrayCell {OdeResult} sol_y sol_t Artist.
Arguments array_baselines {Cell ArrayCell OdeResult Artist X} c.
Arguments is_pyplot {Cell ArrayCell OdeResult Artist X} c.
Arguments driver_part {Cell ArrayCell OdeResult Artist W} h.

(** A closed instance of what the script calls, over that of the driver:
    a clock at 0, a model over arrays that keeps its rows and returns the
    first rows as potentials, and a pyplot that does nothing. *)
Definition environment :
    handler (script_call Fixture.Cell (list array) Fixture.OdeResult unit) unit :=
  fun X call w =>
    match call in script_call _ _ _ _ X return result X * unit with
    | driver c => Fixture.environment true 0 c w
    | time_time => (Ok 0, w)
    | EDPRmodel_arrays T Na_si Na_se Na_di Na_de K_si K_se K_di K_de
        Cl_si Cl_se Cl_di Cl_de Ca_si Ca_se Ca_di Ca_de
        X_si X_se X_di X_de alpha Ca0_si Ca0_di n h s c q z =>
        (Ok [Na_si; Na_se; Na_di; Na_de; K_si; K_se; K_di; K_de], w)
    | membrane_potentials_arrays cell =>
        (Ok (nth 0 cell [], nth 1 cell [], nth 2 cell [], nth 3 cell [],
             nth 4 cell [], nth 5 cell []), w)
    | reversal_potentials_arrays cell =>
        (Ok (nth 0 cell [], nth 1 cell [], nth 2 cell [], nth 3 cell [],
             nth 4 cell [], nth 5 cell [], nth 6 cell [], nth 7 cell []), w)
    | plt_figure _ | plt_plot _ _ _ _ | plt_title _ | plt_xlabel _
    | plt_ylabel _ | plt_legend _ => (Ok tt, w)
    | plt_show => (Ok tt, w)
    end.

(** The same instance with an integrator that gives up. *)
Definition environment_without_integrator :
    handler (script_call Fixture.Cell (list array) Fixture.OdeResult unit) unit :=
  fun X call w =>
    match call in script_call _ _ _ _ X return result X * unit with
    | driver c =>
        match c in driver_call _ _ X return result X * unit with
        | solve_ivp _ _ _ _ => (Err (OtherError "RuntimeError"), w)
        | model c' => Fixture.environment true 0 (model c') w
        | membrane_potentials cell => Fixture.environment true 0 (membrane_potentials cell) w
        | reversal_potentials cell => Fixture.environment true 0 (reversal_potentials cell) w
        | getattr cell name => Fixture.environment true 0 (getattr cell name) w
        | total_charge cell k V => Fixture.environment true 0 (total_charge cell k V) w
        end
    | time_time => (Ok 0, w)
    | EDPRmodel_arrays T Na_si Na_se Na_di Na_de K_si K_se K_di K_de
        Cl_si Cl_se Cl_di Cl_de Ca_si Ca_se Ca_di Ca_de
        X_si X_se X_di X_de alpha Ca0_si Ca0_di n h s c q z =>
        (Ok [Na_si; Na_se; Na_di; Na_de; K_si; K_se; K_di; K_de], w)
    | membrane_potentials_arrays cell =>
        (Ok (nth 0 cell [], nth 1 cell [], nth 2 cell [], nth 3 cell [],
             nth 4 cell [], nth 5 cell []), w)
    | reversal_potentials_arrays cell =>
        (Ok (nth 0 cell [], nth 1 cell [], nth 2 cell [], nth 3 cell [],
             nth 4 cell [], nth 5 cell [], nth 6 cell [], nth 7 cell []), w)
    | plt_figure _ | plt_plot _ _ _ _ | plt_title _ | plt_xlabel _
    | plt_ylabel _ | plt_legend _ => (Ok tt, w)
    | plt_show => (Ok tt, w)
    end.

(** A solution with 26 rows and no sample. *)
Definition empty_solution : Fixture.OdeResult :=
  {| Fixture.sol_t := []; Fixture.sol_y := repeat [] 26 |}.

End ExampleSimulation.

(** ** The rate assembler and the run without stimulus, in the spec's words *)

(** Modelled from the spec: how the injector scales the injected current:
    it multiplies it by a factor, or it divides it by a divisor. *)
Inductive scaling : Type :=
| Times (g : float)
| Over (d : float).

Definition scaled (I_stim : float) (s : scaling) : float :=
  match s with
  | Times g => I_stim * g
  | Over d => I_stim / d
  end.

(** A factor is finite; a divisor is a number other than zero. *)
Definition well_scaled (s : scaling) : bool :=
  match s with
  | Times g => is_finite g
  | Over d => negb (is_nan d) && negb (d =? 0)
  end.

Section Assembler.

Variable Cell : Type.
Variable OdeResult : Type.
Variable sol_y : OdeResult -> list (list float).
Variable W : Type.

(** Step 6 of the rate assembler: the injector is handed the somatic
    potassium pair of the unstimulated rates, with weight 1.0 and the
    magnitude [I_stim], and what it returns takes the place of the pair. *)
Definition perturbed (h : handler (model_call Cell) W) (I_stim : float)
    (cell : Cell) (out0 : list float) (w0 : W) : result (list float) * W :=
  match h _ (somatic_injection_current cell (nth 4 out0 0) (nth 5 out0 0) 1.0 I_stim) w0 with
  | (Ok (a, b), w') => (Ok (update (update out0 4 a) 5 b), w')
  | (Err e, w') => (Err e, w')
  end.

(** The rate assembler: the snapshot and the unstimulated rates (steps 1 to
    5), perturbed (step 6) if and only if the time lies strictly within the
    stimulus window. *)
Definition rate_assembler (h : handler (model_call Cell) W)
    (alpha I_stim stim_start stim_end t : float) (k : list float) (w : W) :
    result (list float) * W :=
  match run h (snapshot alpha k) w with
  | (Err e, w1) => (Err e, w1)
  | (Ok cell, _) =>
      match run h (dkdt_unstimulated alpha k) w with
      | (Err e, w0) => (Err e, w0)
      | (Ok out0, w0) =>
          if (stim_start <? t) && (t <? stim_end)
          then perturbed h I_stim cell out0 w0
          else (Ok out0, w0)
      end
  end.

(** A run with the stimulus disabled entirely: the driver with the
    unstimulated rate function handed to the integrator. *)
Definition unstimulated_run (t_dur alpha : float) :
    prog (driver_call Cell OdeResult) OdeResult :=
  _ <- initial_values alpha ;;
  integrate sol_y (fun _ k => dkdt_unstimulated alpha k) t_dur.

(** The part of a handler of the driver that answers the calls of a rate
    evaluation. *)
Definition model_part (h : handler (driver_call Cell OdeResult) W) :
    handler (model_call Cell) W :=
  fun X c w => h X (model c) w.

(** Modelled from the spec: the injector, which is not part of the driver,
    is a pure function, with no state of its own, that adds the injected
    current, scaled, to the first rate and subtracts it, scaled, from the
    second (sections 4.3, step 6, and 4.4).  The two scalings may depend on
    the model; the weight is the 1.0 that [dkdt] passes. *)
Definition additive_injector (h : handler (model_call Cell) W)
    (scale_i scale_e : Cell -> scaling) : Prop :=
  forall neuron a b I_stim w,
    h _ (somatic_injection_current neuron a b 1.0 I_stim) w
    = (Ok (a + scaled I_stim (scale_i neuron), b - scaled I_stim (scale_e neuron)), w).

(** Modelled from the spec: the integrator, which is not part of the
    driver, consumes the rate function through its contract (given a time
    and a state vector, the vector of rates): what it answers depends on
    the function only through the outcomes of its evaluations, read as
    numbers. *)
Definition reads_rates (hd : handler (driver_call Cell OdeResult) W) : Prop :=
  forall f g t_span y0 max_step w,
    (forall t k w',
       same_outcome (run (model_part hd) (f t k) w')
         (run (model_part hd) (g t k) w')) ->
    hd _ (solve_ivp f t_span y0 max_step) w = hd _ (solve_ivp g t_span y0 max_step) w.

End Assembler.

Arguments perturbed {Cell W} h I_stim cell out0 w0.
Arguments rate_assembler {Cell W} h alpha I_stim stim_start stim_end t k w.
Arguments unstimulated_run {Cell OdeResult} sol_y t_dur alpha.
Arguments additive_injector {Cell W} h scale_i scale_e.
Arguments reads_rates {Cell OdeResult W} hd.
Arguments model_part {Cell OdeResult W} h.

(** ** The total charge of a compartment *)

(** Modelled from the spec: [total_charge(k, V)] of the model class, which
    is not part of the driver: the sum of the concentrations weighted by
    their signed valences, times the volume, times Faraday's constant.  The
    valences are those of [Na], [K], [Cl], [Ca] and [X], the order of the
    lists of lines 83 to 86; [X] weighs -1, as in lines 47 to 50. *)
Definition valences : list float := [1; 1; -1; 2; -1].

Definition weighted_sum (k : list float) : float :=
  fold_left add (map (fun zc => fst zc * snd zc) (combine valences k)) 0.

Definition charge_of (F : float) (k : list float) (V : float) : float :=
  weighted_sum k * V * F.

(** Modelled from the spec: Faraday's constant and the volumes of the
    intracellular and the extracellular compartments.  Their values are not
    named in the driver: they are the factors by which lines 44 and 45
    divide to make [res_i] and [res_e]. *)
Definition Faraday : float := 9.648e4.
Definition V_i : float := 1437e-18.
Definition V_e : float := 718.5e-18.

(** The residual of a compartment weighted by its volume: the charge that
    the initialisation leaves on it. *)
Definition baseline_charge (res V : float) : float := res * V * Faraday.

(** [x] is [y] within the relative tolerance [1e-12]. *)
Definition within_tolerance (x y : float) : bool :=
  abs (x - y) <? 1e-12 * abs y.

(** ** A closed instance with an additive injector

    The collaborators of [Fixture], without validation, with an injector
    that divides the current by the volume of the compartment, the weight
    and Faraday's constant, and an integrator that takes one Euler step and
    stores a zero of either sign as [0.0]. *)

Module AdditiveFixture.

Definition collaborators : handler (model_call Fixture.Cell) unit :=
  fun X call w =>
    match call in model_call _ X return result X * unit with
    | somatic_injection_current _ dkdt_si dkdt_se Z I_stim =>
        (Ok (dkdt_si + I_stim / (V_i * Z * Faraday),
             dkdt_se - I_stim / (V_e * Z * Faraday)), w)
    | c => Fixture.collaborators false c w
    end.

Definition scale_i (neuron : Fixture.Cell) : scaling := Over (V_i * 1.0 * Faraday).
Definition scale_e (neuron : Fixture.Cell) : scaling := Over (V_e * 1.0 * Faraday).

Definition canonical (x : float) : float := if x =? 0 then 0 else x.

Definition euler_step
    (f : float -> list float -> prog (model_call Fixture.Cell) (list float))
    (t_span : float * float) (y0 : list float) (max_step : float) :
    result Fixture.OdeResult :=
  match fst (run collaborators (f (fst t_span) y0) tt) with
  | Ok dy =>
      Ok {| Fixture.sol_t := [fst t_span; fst t_span + max_step];
            Fixture.sol_y :=
              map (fun yd => [fst yd; canonical (fst yd + max_step * snd yd)])
                (combine y0 dy) |}
  | Err e => Err e
  end.

Definition environment : handler (driver_call Fixture.Cell Fixture.OdeResult) unit :=
  fun X call w =>
    match call in driver_call _ _ X return result X * unit with
    | model c => collaborators c w
    | solve_ivp f t_span y0 max_step => (euler_step f t_span y0 max_step, w)
    | c => Fixture.environment false 0 c w
    end.

End AdditiveFixture.

(** ** The rate function as Python executes it

    The statements of [dkdt] (lines 60 to 75) in the part of Python that
    they are written in, with the state that an evaluation could change:
    the variables of the enclosing call of [solve_EDPRmodel] that the
    closure shares with it and with every other evaluation, and the
    objects on the heap, of which the state vector is one.  The language
    has the assignment to an element of a list and the declaration of a
    nonlocal name, which [dkdt] does not use. *)

Module Python.

Inductive expr : Type :=
| Const (x : float)
| Name (x : string).

(** [a > b], [a < b] and [p and q]. *)
Inductive cond : Type :=
| Gt (a b : expr)
| Lt (a b : expr)
| And (p q : cond).

(** The right-hand side of an assignment: an expression, [f(args)] or
    [obj.method(args)]. *)
Inductive rhs : Type :=
| Value (e : expr)
| CallFunction (f : string) (args : list expr)
| CallMethod (obj : string) (method : string) (args : list expr).

(** [x = r]; [x1, ..., xn = r]; [x[i] = e]; [if c: body]; and
    [return e1, ..., en]. *)
Inductive stmt : Type :=
| Assign (target : string) (r : rhs)
| Unpack (targets : list string) (r : rhs)
| SetItem (target : string) (index : nat) (e : expr)
| If (c : cond) (body : list stmt)
| Return (es : list expr).

(** [def f(params): nonlocal nonlocals; body] *)
Record def : Type := {
  params : list string;
  nonlocals : list string;
  body : list stmt
}.

Definition mem (x : string) (l : list string) : bool := existsb (String.eqb x) l.

(** The names that a statement assigns. *)
Fixpoint targets_of (c : stmt) : list string :=
  match c with
  | Assign x _ => [x]
  | Unpack xs _ => xs
  | SetItem _ _ _ => []
  | If _ body => flat_map targets_of body
  | Return _ => []
  end.

(** A name is local to a function when it is a parameter or the function
    assigns it anywhere in its body, unless it is declared nonlocal. *)
Definition is_local (d : def) (x : string) : bool :=
  (mem x (params d) || mem x (flat_map targets_of (body d)))
  && negb (mem x (nonlocals d)).

Definition floats6 (r : tuple6) : list float :=
  let '(a1, a2, a3, a4, a5, a6) := r in [a1; a2; a3; a4; a5; a6].

Definition floats20 (r : tuple20) : list float :=
  let '(a1, a2, a3, a4, a5, a6, a7, a8, a9, a10,
        a11, a12, a13, a14, a15, a16, a17, a18, a19, a20) := r in
  [a1; a2; a3; a4; a5; a6; a7; a8; a9; a10;
   a11; a12; a13; a14; a15; a16; a17; a18; a19; a20].

Section Semantics.

Variable Cell : Type.
Variable W : Type.
Variable h : handler (model_call Cell) W.

(** Values: [None], a float, an instance of the model class, a tuple, and a
    reference to a list or an array of floats on the heap. *)
Inductive value : Type :=
| VNone
| VFloat (x : float)
| VCell (c : Cell)
| VTuple (vs : list value)
| VRef (a : nat).

Definition frame : Type := list (string * value).

(** The state that evaluations share: the cells of the closure and the
    heap. *)
Record store : Type := {
  cells : frame;
  heap : nat -> list float
}.

(** The state of an evaluation: its own local variables, the shared state
    and the world of the collaborators. *)
Record state : Type := {
  locals : frame;
  shared : store;
  world : W
}.

Inductive outcome : Type :=
| Next
| Returned (v : value)
| Raised (e : exn).

Fixpoint lookup (x : string) (f : frame) : option value :=
  match f with
  | [] => None
  | (y, v) :: rest => if String.eqb x y then Some v else lookup x rest
  end.

Fixpoint bind_name (x : string) (v : value) (f : frame) : frame :=
  match f with
  | [] => [(x, v)]
  | (y, u) :: rest =>
      if String.eqb x y then (x, v) :: rest else (y, u) :: bind_name x v rest
  end.

(** Reading a name: a local name in the frame of the evaluation, any
    other name in the cells of the closure. *)
Definition read (d : def) (s : state) (x : string) : result value :=
  if is_local d x
  then match lookup x (locals s) with
       | Some v => Ok v
       | None => Err (OtherError "UnboundLocalError")
       end
  else match lookup x (cells (shared s)) with
       | Some v => Ok v
       | None => Err (OtherError "NameError")
       end.

(** Binding a name: a nonlocal name in the cells of the closure, any other
    name in the frame of the evaluation. *)
Definition assign (d : def) (x : string) (v : value) (s : state) : state :=
  if mem x (nonlocals d)
  then {| locals := locals s;
          shared := {| cells := bind_name x v (cells (shared s));
                       heap := heap (shared s) |};
          world := world s |}
  else {| locals := bind_name x v (locals s); shared := shared s; world := world s |}.

Definition eval (d : def) (s : state) (e : expr) : result value :=
  match e with
  | Const x => Ok (VFloat x)
  | Name x => read d s x
  end.

Fixpoint evals (d : def) (s : state) (es : list expr) : result (list value) :=
  match es with
  | [] => Ok []
  | e :: rest =>
      match eval d s e with
      | Ok v =>
          match evals d s rest with
          | Ok vs => Ok (v :: vs)
          | Err e' => Err e'
          end
      | Err e' => Err e'
      end
  end.

Definition compare (op : float -> float -> bool) (u v : value) : result bool :=
  match u, v with
  | VFloat x, VFloat y => Ok (op x y)
  | _, _ => Err (OtherError "TypeError")
  end.

(** A condition; [and] does not evaluate its second operand when the first
    is false. *)
Fixpoint test (d : def) (s : state) (c : cond) : result bool :=
  match c with
  | Gt a b =>
      match eval d s a with
      | Ok u => match eval d s b with
                | Ok v => compare gtb u v
                | Err e => Err e
                end
      | Err e => Err e
      end
  | Lt a b =>
      match eval d s a with
      | Ok u => match eval d s b with
                | Ok v => compare PrimFloat.ltb u v
                | Err e => Err e
                end
      | Err e => Err e
      end
  | And p q =>
      match test d s p with
      | Ok true => test d s q
      | r => r
      end
  end.

Fixpoint floats_of (vs : list value) : option (list float) :=
  match vs with
  | [] => Some []
  | VFloat x :: rest => option_map (cons x) (floats_of rest)
  | _ :: _ => None
  end.

(** A call of a collaborator, answered by the handler. *)
Definition answer (X : Type) (c : model_call Cell X) (wrap : X -> value) (w : W) :
    result value * W :=
  match h c w with
  | (Ok x, w') => (Ok (wrap x), w')
  | (Err e, w') => (Err e, w')
  end.

(** The two functions that the module imports. *)
Definition apply_function (f : string) (vs : list value) (w : W) : result value * W :=
  if String.eqb f "EDPRmodel" then
    match floats_of vs with
    | Some [a0; a1; a2; a3; a4; a5; a6; a7; a8; a9;
            a10; a11; a12; a13; a14; a15; a16; a17; a18; a19;
            a20; a21; a22; a23; a24; a25; a26; a27; a28; a29] =>
        answer (EDPRmodel a0 a1 a2 a3 a4 a5 a6 a7 a8 a9
                  a10 a11 a12 a13 a14 a15 a16 a17 a18 a19
                  a20 a21 a22 a23 a24 a25 a26 a27 a28 a29) VCell w
    | _ => (Err (OtherError "TypeError"), w)
    end
  else if String.eqb f "somatic_injection_current" then
    match vs with
    | [VCell neuron; VFloat a; VFloat b; VFloat Z; VFloat I_stim] =>
        answer (somatic_injection_current neuron a b Z I_stim)
          (fun p => VTuple [VFloat (fst p); VFloat (snd p)]) w
    | _ => (Err (OtherError "TypeError"), w)
    end
  else (Err (OtherError "NameError"), w).

(** The two rate methods of an instance of the model class. *)
Definition apply_method (obj : value) (method : string) (vs : list value) (w : W) :
    result value * W :=
  match obj, vs with
  | VCell c, [] =>
      if String.eqb method "dkdt"
      then answer (cell_dkdt c) (fun r => VTuple (map VFloat (floats20 r))) w
      else if String.eqb method "dmdt"
      then answer (cell_dmdt c) (fun r => VTuple (map VFloat (floats6 r))) w
      else (Err (OtherError "AttributeError"), w)
  | VCell _, _ :: _ => (Err (OtherError "TypeError"), w)
  | _, _ => (Err (OtherError "AttributeError"), w)
  end.

Definition eval_rhs (d : def) (s : state) (r : rhs) : result value * W :=
  match r with
  | Value e => (eval d s e, world s)
  | CallFunction f args =>
      match evals d s args with
      | Ok vs => apply_function f vs (world s)
      | Err e => (Err e, world s)
      end
  | CallMethod obj method args =>
      match read d s obj with
      | Ok v =>
          match evals d s args with
          | Ok vs => apply_method v method vs (world s)
          | Err e => (Err e, world s)
          end
      | Err e => (Err e, world s)
      end
  end.

(** The items of a value that is unpacked. *)
Definition items (s : state) (v : value) : result (list value) :=
  match v with
  | VTuple vs => Ok vs
  | VRef a => Ok (map VFloat (heap (shared s) a))
  | _ => Err (OtherError "TypeError")
  end.

(** The targets of an unpacking are bound from left to right; nothing is
    bound when the numbers of targets and of items differ. *)
Fixpoint assign_all (d : def) (xs : list string) (vs : list value) (s : state) :
    option state :=
  match xs, vs with
  | [], [] => Some s
  | x :: xs', v :: vs' => assign_all d xs' vs' (assign d x v s)
  | _, _ => None
  end.

Definition with_world (s : state) (w : W) : state :=
  {| locals := locals s; shared := shared s; world := w |}.

(** [x[i] = v] on the list at address [a]. *)
Definition set_item (s : state) (a i : nat) (v : float) : state :=
  {| locals := locals s;
     shared := {| cells := cells (shared s);
                  heap := fun b => if Nat.eqb b a
                                   then update (heap (shared s) b) i v
                                   else heap (shared s) b |};
     world := world s |}.

Fixpoint exec (d : def) (c : stmt) (s : state) {struct c} : outcome * state :=
  match c with
  | Assign x r =>
      match eval_rhs d s r with
      | (Ok v, w) => (Next, assign d x v (with_world s w))
      | (Err e, w) => (Raised e, with_world s w)
      end
  | Unpack xs r =>
      match eval_rhs d s r with
      | (Ok v, w) =>
          match items s v with
          | Ok vs =>
              match assign_all d xs vs (with_world s w) with
              | Some s' => (Next, s')
              | None => (Raised ValueError, with_world s w)
              end
          | Err e => (Raised e, with_world s w)
          end
      | (Err e, w) => (Raised e, with_world s w)
      end
  | SetItem x i e =>
      match read d s x with
      | Ok (VRef a) =>
          match eval d s e with
          | Ok (VFloat v) =>
              if Nat.ltb i (List.length (heap (shared s) a))
              then (Next, set_item s a i v)
              else (Raised (OtherError "IndexError"), s)
          | Ok _ => (Raised (OtherError "TypeError"), s)
          | Err e' => (Raised e', s)
          end
      | Ok _ => (Raised (OtherError "TypeError"), s)
      | Err e' => (Raised e', s)
      end
  | If c' body =>
      match test d s c' with
      | Ok true =>
          (fix block (l : list stmt) (s0 : state) {struct l} : outcome * state :=
             match l with
             | [] => (Next, s0)
             | c0 :: rest =>
                 match exec d c0 s0 with
                 | (Next, s1) => block rest s1
                 | r => r
                 end
             end) body s
      | Ok false => (Next, s)
      | Err e => (Raised e, s)
      end
  | Return es =>
      match evals d s es with
      | Ok vs => (Returned (VTuple vs), s)
      | Err e => (Raised e, s)
      end
  end.

Fixpoint block (d : def) (l : list stmt) (s : state) : outcome * state :=
  match l with
  | [] => (Next, s)
  | c :: rest =>
      match exec d c s with
      | (Next, s') => block d rest s'
      | r => r
      end
  end.

Fixpoint bind_all (xs : list string) (vs : list value) (f : frame) : option frame :=
  match xs, vs with
  | [], [] => Some f
  | x :: xs', v :: vs' => bind_all xs' vs' (bind_name x v f)
  | _, _ => None
  end.

(** A call of the function: a frame of its own for the parameters, the body,
    and what it returns or raises, with the shared state and the world that
    it leaves.  The frame is dropped. *)
Definition evaluate (d : def) (args : list value) (st : store) (w : W) :
    result value * store * W :=
  match bind_all (params d) args [] with
  | Some f =>
      let (o, s) := block d (body d) {| locals := f; shared := st; world := w |} in
      (match o with
       | Next => Ok VNone
       | Returned v => Ok v
       | Raised e => Err e
       end, shared s, world s)
  | None => (Err (OtherError "TypeError"), st, w)
  end.

(** A sequence of calls [d(t, k)], each with a time and the address of a
    state vector, one after the other on the same shared state. *)
Fixpoint evaluate_all (d : def) (calls : list (float * nat)) (st : store) (w : W) :
    list (result value) * store * W :=
  match calls with
  | [] => ([], st, w)
  | (t, a) :: rest =>
      let '(r, st1, w1) := evaluate d [VFloat t; VRef a] st w in
      let '(rs, st2, w2) := evaluate_all d rest st1 w1 in
      (r :: rs, st2, w2)
  end.

(** The cells of the closure of [dkdt]: the variables of [solve_EDPRmodel]
    that [dkdt] reads and does not assign. *)
Definition closure (alpha I_stim stim_start stim_end : float) : frame :=
  [("T", VFloat T); ("alpha", VFloat alpha);
   ("Ca_si0", VFloat Ca_si0); ("Ca_di0", VFloat Ca_di0);
   ("stim_start", VFloat stim_start); ("stim_end", VFloat stim_end);
   ("I_stim", VFloat I_stim)].

(** The state that the evaluations of a run share: the cells of the
    closure and a heap. *)
Definition shared_state (alpha I_stim stim_start stim_end : float)
    (hp : nat -> list float) : store :=
  {| cells := closure alpha I_stim stim_start stim_end; heap := hp |}.

(** The value of a rate vector that is returned, or the error. *)
Definition returned (r : result (list float)) : result value :=
  match r with
  | Ok l => Ok (VTuple (map VFloat l))
  | Err e => Err e
  end.

End Semantics.

Arguments VNone {Cell}.
Arguments VFloat {Cell} x.
Arguments VCell {Cell} c.
Arguments VTuple {Cell} vs.
Arguments VRef {Cell} a.
Arguments closure {Cell} alpha I_stim stim_start stim_end.
Arguments shared_state {Cell} alpha I_stim stim_start stim_end hp.
Arguments returned {Cell} r.
Arguments evaluate {Cell W} h d args st w.
Arguments evaluate_all {Cell W} h d calls st w.

(** [def dkdt(t,k)], lines 60 to 75. *)
Definition dkdt_def : def := {|
  params := ["t"; "k"];
  nonlocals := [];
  body :=
    [ Unpack ["Na_si"; "Na_se"; "Na_di"; "Na_de"; "K_si"; "K_se"; "K_di"; "K_de";
              "Cl_si"; "Cl_se"; "Cl_di"; "Cl_de"; "Ca_si"; "Ca_se"; "Ca_di"; "Ca_de";
              "X_si"; "X_se"; "X_di"; "X_de"; "n"; "h"; "s"; "c"; "q"; "z"]
        (Value (Name "k"));
      Assign "my_cell"
        (CallFunction "EDPRmodel"
           (map Name
              ["T"; "Na_si"; "Na_se"; "Na_di"; "Na_de"; "K_si"; "K_se"; "K_di"; "K_de";
               "Cl_si"; "Cl_se"; "Cl_di"; "Cl_de"; "Ca_si"; "Ca_se"; "Ca_di"; "Ca_de";
               "X_si"; "X_se"; "X_di"; "X_de"; "alpha"; "Ca_si0"; "Ca_di0";
               "n"; "h"; "s"; "c"; "q"; "z"]));
      Unpack ["dNadt_si"; "dNadt_se"; "dNadt_di"; "dNadt_de";
              "dKdt_si"; "dKdt_se"; "dKdt_di"; "dKdt_de";
              "dCldt_si"; "dCldt_se"; "dCldt_di"; "dCldt_de";
              "dCadt_si"; "dCadt_se"; "dCadt_di"; "dCadt_de";
              "dresdt_si"; "dresdt_se"; "dresdt_di"; "dresdt_de"]
        (CallMethod "my_cell" "dkdt" []);
      Unpack ["dndt"; "dhdt"; "dsdt"; "dcdt"; "dqdt"; "dzdt"]
        (CallMethod "my_cell" "dmdt" []);
      If (And (Gt (Name "t") (Name "stim_start")) (Lt (Name "t") (Name "stim_end")))
        [ Unpack ["dKdt_si"; "dKdt_se"]
            (CallFunction "somatic_injection_current"
               [Name "my_cell"; Name "dKdt_si"; Name "dKdt_se"; Const 1.0;
                Name "I_stim"]) ];
      Return
        (map Name
           ["dNadt_si"; "dNadt_se"; "dNadt_di"; "dNadt_de";
            "dKdt_si"; "dKdt_se"; "dKdt_di"; "dKdt_de";
            "dCldt_si"; "dCldt_se"; "dCldt_di"; "dCldt_de";
            "dCadt_si"; "dCadt_se"; "dCadt_di"; "dCadt_de";
            "dresdt_si"; "dresdt_se"; "dresdt_di"; "dresdt_de";
            "dndt"; "dhdt"; "dsdt"; "dcdt"; "dqdt"; "dzdt"]) ]
|}.

End Python.

(** * Properties *)

Unset Implicit Arguments.

(** ** Comparisons of binary64 numbers *)

Lemma SFltb_irrefl (x : spec_float) : SFltb x x = false.
Proof.
  unfold SFltb.
  destruct x as [sx | sx | | sx mx ex]; simpl; try reflexivity.
  - destruct sx; reflexivity.
  - destruct sx; rewrite Z.compare_refl, Pos.compare_cont_refl; reflexivity.
Qed.

Lemma ltb_irrefl (x : float) : (x <? x) = false.
Proof. rewrite FloatAxioms.ltb_spec. apply SFltb_irrefl. Qed.

Lemma SFcompare_Lt_trans (x y z : spec_float) :
  SFcompare x y = Some Lt -> SFcompare y z = Some Lt -> SFcompare x z = Some Lt.
Proof.
  destruct x as [sx | sx | | sx mx ex], y as [sy | sy | | sy my ey],
      z as [sz | sz | | sz mz ez];
    simpl; try discriminate; try congruence;
    repeat match goal with b : bool |- _ => destruct b end;
    simpl; try discriminate; try congruence.
  all: destruct (Z.compare_spec ex ey), (Z.compare_spec ey ez), (Z.compare_spec ex ez);
    try discriminate; try congruence; try lia; subst.
  all: change (Pos.compare_cont Eq ?a ?b) with (Pos.compare a b).
  all: destruct (Pos.compare_spec mx my), (Pos.compare_spec my mz),
         (Pos.compare_spec mx mz);
    simpl; try discriminate; try congruence; try lia.
Qed.

Lemma ltb_trans (x y z : float) :
  (x <? y) = true -> (y <? z) = true -> (x <? z) = true.
Proof.
  rewrite !FloatAxioms.ltb_spec. unfold SFltb.
  destruct (SFcompare (Prim2SF x) (Prim2SF y)) as [[] |] eqn:Hxy; try discriminate.
  destruct (SFcompare (Prim2SF y) (Prim2SF z)) as [[] |] eqn:Hyz; try discriminate.
  rewrite (SFcompare_Lt_trans _ _ _ Hxy Hyz). reflexivity.
Qed.

(** Nothing lies strictly between two numbers that compare equal. *)
Lemma empty_window (a b t : float) :
  (a =? b) = true -> (t >? a) && (t <? b) = false.
Proof.
  intros Hab. unfold gtb.
  destruct (a <? t) eqn:H1; [| reflexivity].
  destruct (t <? b) eqn:H2; [| reflexivity].
  pose proof (ltb_trans _ _ _ H1 H2) as H3.
  rewrite FloatAxioms.eqb_spec in Hab. rewrite FloatAxioms.ltb_spec in H3.
  unfold SFeqb in Hab. unfold SFltb in H3.
  destruct (SFcompare (Prim2SF a) (Prim2SF b)) as [[] |]; discriminate.
Qed.

Lemma window_closed_at_start (a b : float) : (a >? a) && (a <? b) = false.
Proof. unfold gtb. rewrite ltb_irrefl. reflexivity. Qed.

Lemma window_closed_at_end (a b : float) : (b >? a) && (b <? b) = false.
Proof. rewrite ltb_irrefl. apply andb_false_r. Qed.

Lemma same_number_refl (x : float) : same_number x x = true.
Proof. unfold same_number, is_nan. destruct (x =? x); reflexivity. Qed.

Lemma same_outcome_refl (W : Type) (r : result (list float) * W) : same_outcome r r.
Proof.
  split; [reflexivity |]. destruct (fst r) as [l | e]; [| reflexivity].
  induction l; constructor; [apply same_number_refl | assumption].
Qed.

(** ** Programs *)

Section ProgramFacts.

Variable E : Type -> Type.
Variable W : Type.
Variable h : handler E W.

Lemma run_bind (A B : Type) (p : prog E A) (f : A -> prog E B) (w : W) :
  run h (bind p f) w =
    match run h p w with
    | (Ok a, w') => run h (f a) w'
    | (Err e, w') => (Err e, w')
    end.
Proof.
  revert w. induction p as [a | e | X c k IH]; intros w; simpl; try reflexivity.
  destruct (h _ c w) as [[x | e] w1]; [apply IH | reflexivity].
Qed.

(** Under a pure handler a program is a pure function: its outcome is the
    same in every world, and the world is left as it was. *)
Lemma run_pure (A : Type) (p : prog E A) :
  pure_handler h -> exists r : result A, forall w, run h p w = (r, w).
Proof.
  intros Hpure. induction p as [a | e | X c k IH]; simpl.
  - exists (Ok a). reflexivity.
  - exists (Err e). reflexivity.
  - destruct (Hpure X c) as [[x | e] Hc].
    + destruct (IH x) as [r Hr]. exists r. intros w. rewrite Hc. apply Hr.
    + exists (Err e). intros w. rewrite Hc. reflexivity.
Qed.

End ProgramFacts.

(** ** Tactics *)

(** Splits a state vector into its components, up to the 26th. *)
Ltac unpack k :=
  do 27 (try (destruct k as [| ? k]; simpl in *; try discriminate; try tauto)).

(** Splits the tuples in the context into their components. *)
Ltac untuple :=
  cbv delta [tuple20 tuple8 tuple6] in *;
  repeat match goal with p : (_ * _)%type |- _ => destruct p end.

(** Takes the answer of the handler to the next call; the goal is closed
    when the call raises. *)
Ltac answer h :=
  cbv delta [tuple20 tuple8 tuple6] in *;
  match goal with
  | |- context [h ?X ?c ?w] =>
      destruct (h X c w) as [[? | ?] ?]; [| reflexivity]
  end.

(** ** The rate function *)

Section RateFunction.

Variable Cell : Type.


(** *** One evaluation, call by call *)

Section Evaluation.

Variable W : Type.
Variable h : handler (model_call Cell) W.
Variables alpha I_stim stim_start stim_end : float.

Lemma run_dkdt_unstimulated (k : list float) (w : W) :
  run h (dkdt_unstimulated alpha k) w =
    match run h (snapshot alpha k) w with
    | (Err e, w1) => (Err e, w1)
    | (Ok cell, w1) =>
        match h _ (cell_dkdt cell) w1 with
        | (Err e, w2) => (Err e, w2)
        | (Ok r, w2) =>
            match h _ (cell_dmdt cell) w2 with
            | (Err e, w3) => (Err e, w3)
            | (Ok m, w3) => (Ok (map (rate_of r m (somatic_K r)) state_order), w3)
            end
        end
    end.
Proof.
  unpack k; try reflexivity.
  answer h. answer h. untuple. simpl. answer h. untuple. reflexivity.
Qed.

Lemma run_dkdt (t : float) (k : list float) (w : W) :
  run h (dkdt alpha I_stim stim_start stim_end t k) w =
    match run h (snapshot alpha k) w with
    | (Err e, w1) => (Err e, w1)
    | (Ok cell, w1) =>
        match h _ (cell_dkdt cell) w1 with
        | (Err e, w2) => (Err e, w2)
        | (Ok r, w2) =>
            match h _ (cell_dmdt cell) w2 with
            | (Err e, w3) => (Err e, w3)
            | (Ok m, w3) =>
                if (t >? stim_start) && (t <? stim_end)
                then
                  match
                    h _ (somatic_injection_current cell (fst (somatic_K r))
                           (snd (somatic_K r)) 1.0 I_stim) w3
                  with
                  | (Err e, w4) => (Err e, w4)
                  | (Ok p, w4) => (Ok (map (rate_of r m p) state_order), w4)
                  end
                else (Ok (map (rate_of r m (somatic_K r)) state_order), w3)
            end
        end
    end.
Proof.
  unpack k; try reflexivity.
  answer h. answer h. untuple. simpl. answer h. untuple. simpl.
  destruct ((t >? stim_start) && (t <? stim_end)); [| reflexivity].
  simpl. answer h. untuple. reflexivity.
Qed.

(** C2, as the code has it: inside the window the injector is handed the
    somatic potassium pair, the rates of [K_si] and [K_se] at positions 4
    and 5 of the rate vector, and what it returns takes their place. *)
Theorem injection_adjusts_somatic_pair (t : float) (k : list float) (w : W) :
  (stim_start <? t) && (t <? stim_end) = true ->
  injection_pair 4 5 h alpha I_stim stim_start stim_end t k w.
Proof.
  intros Hin cell w1 out0 w0 Hsnap Hun.
  rewrite run_dkdt. rewrite run_dkdt_unstimulated in Hun. rewrite Hsnap in *.
  destruct (h _ (cell_dkdt cell) w1) as [[r | e] w2]; [| discriminate].
  destruct (h _ (cell_dmdt cell) w2) as [[m | e] w3]; [| discriminate].
  injection Hun as <- <-.
  change (t >? stim_start) with (stim_start <? t). rewrite Hin.
  untuple. simpl.
  match goal with
  | |- context [h ?X ?c ?w] => destruct (h X c w) as [[[a b] | e] w4]; reflexivity
  end.
Qed.

(** C5: an evaluation inside the window differs from the unstimulated
    evaluation at the same state only in the somatic potassium pair,
    positions 4 and 5 of the 26 components. *)
Theorem stimulus_changes_only_somatic_potassium
    (t : float) (k : list float) (w w' : W) (out : list float) :
  (stim_start <? t) && (t <? stim_end) = true ->
  run h (dkdt alpha I_stim stim_start stim_end t k) w = (Ok out, w') ->
  exists out0 w0,
    run h (dkdt_unstimulated alpha k) w = (Ok out0, w0)
    /\ List.length out = 26%nat /\ List.length out0 = 26%nat
    /\ forall i, i <> 4%nat -> i <> 5%nat -> nth_error out i = nth_error out0 i.
Proof.
  intros Hin Hrun.
  rewrite run_dkdt in Hrun. rewrite run_dkdt_unstimulated.
  destruct (run h (snapshot alpha k) w) as [[cell | e] w1]; [| discriminate].
  destruct (h _ (cell_dkdt cell) w1) as [[r | e] w2]; [| discriminate].
  destruct (h _ (cell_dmdt cell) w2) as [[m | e] w3]; [| discriminate].
  change (t >? stim_start) with (stim_start <? t) in Hrun. rewrite Hin in Hrun.
  match type of Hrun with
  | context [h ?X ?c ?w] => destruct (h X c w) as [[p | e] w4]; [| discriminate]
  end.
  injection Hrun as <- <-.
  eexists. eexists. split; [reflexivity |].
  split; [reflexivity |]. split; [reflexivity |].
  intros i H4 H5. untuple.
  do 26 (destruct i as [| i]; [first [reflexivity | congruence] |]).
  reflexivity.
Qed.

(** An evaluation of a state vector of 26 components returns when none of
    its calls raises. *)
Lemma dkdt_returns (t : float) (k : list float) (w : W) :
  answers_all h -> List.length k = 26%nat ->
  exists out w', run h (dkdt alpha I_stim stim_start stim_end t k) w = (Ok out, w').
Proof.
  intros Hall Hlen. rewrite run_dkdt. unpack k.
  repeat match goal with
         | |- context [match h ?X ?c ?w with _ => _ end] =>
             destruct (Hall X c w) as (? & ? & ->)
         | |- context [if ?b then _ else _] => destruct b
         end;
    eexists; eexists; reflexivity.
Qed.

(** C6: an evaluation of a state vector of 26 components returns when none
    of its calls raises, and in every evaluation that returns, the
    component at position [i] of the rate vector is the rate of the
    variable whose value is the component at position [i] of the state
    vector, in the order [Na], [K], [Cl], [Ca], [X] by compartment [si],
    [se], [di], [de], then the gates [n], [h], [s], [c], [q], [z].  The
    rates are those that the snapshot built from the state returns, the
    somatic potassium pair being the injector's inside the window. *)
Theorem dkdt_aligned_with_state (t : float) (k : list float) (w : W) :
  (answers_all h -> List.length k = 26%nat ->
   exists out w', run h (dkdt alpha I_stim stim_start stim_end t k) w = (Ok out, w'))
  /\ forall out w',
       run h (dkdt alpha I_stim stim_start stim_end t k) w = (Ok out, w') ->
       exists (new : model_call Cell Cell) cell w1 r w2 m w3 p,
         h _ new w = (Ok cell, w1)
         /\ h _ (cell_dkdt cell) w1 = (Ok r, w2)
         /\ h _ (cell_dmdt cell) w2 = (Ok m, w3)
         /\ (if (stim_start <? t) && (t <? stim_end)
             then h _ (somatic_injection_current cell (fst (somatic_K r))
                         (snd (somatic_K r)) 1.0 I_stim) w3 = (Ok p, w')
             else p = somatic_K r /\ w' = w3)
         /\ forall i v,
              nth_error state_order i = Some v ->
              passed v new = nth_error k i
              /\ nth_error out i = Some (rate_of r m p v).
Proof.
  split; [apply dkdt_returns |].
  intros out w' Hrun. rewrite run_dkdt in Hrun.
  unpack k.
  match type of Hrun with
  | context [h ?X ?c w] =>
      exists c; destruct (h X c w) as [[cell | e] w1] eqn:Hnew; [| discriminate]
  end.
  destruct (h _ (cell_dkdt cell) w1) as [[r | e] w2] eqn:Hr; [| discriminate].
  destruct (h _ (cell_dmdt cell) w2) as [[m | e] w3] eqn:Hm; [| discriminate].
  exists cell, w1, r, w2, m, w3.
  change (t >? stim_start) with (stim_start <? t) in Hrun.
  destruct ((stim_start <? t) && (t <? stim_end)).
  - match type of Hrun with
    | context [h ?X ?c ?w] =>
        destruct (h X c w) as [[p | e] w4] eqn:Hp; [| discriminate]
    end.
    injection Hrun as <- <-. exists p.
    do 4 (split; [first [assumption | reflexivity] |]).
    intros i v Hv. untuple.
    do 26 (destruct i as [| i]; [injection Hv as <-; split; reflexivity |]).
    destruct i; discriminate Hv.
  - injection Hrun as <- <-. exists (somatic_K r).
    do 3 (split; [first [assumption | reflexivity] |]). split; [split; reflexivity |].
    intros i v Hv. untuple.
    do 26 (destruct i as [| i]; [injection Hv as <-; split; reflexivity |]).
    destruct i; discriminate Hv.
Qed.

(** An evaluation passes the two fixed baselines to the constructor,
    whatever the state. *)
Lemma dkdt_fixed_baselines (t : float) (k : list float) :
  every_call (@fixed_baselines Cell) (dkdt alpha I_stim stim_start stim_end t k).
Proof.
  unpack k; try exact I.
  split.
  - intros a b Hab. injection Hab as <- <-. split; reflexivity.
  - intros cell. split; [intros a b Hab; discriminate Hab |].
    intros r. untuple. simpl. split; [intros a b Hab; discriminate Hab |].
    intros m. untuple. simpl.
    destruct ((t >? stim_start) && (t <? stim_end)); simpl.
    + split; [intros a b Hab; discriminate Hab |]. intros p. untuple. exact I.
    + exact I.
Qed.

End Evaluation.

End RateFunction.

(** ** The driver *)

Section Solve.

Variable Cell : Type.
Variable OdeResult : Type.
Variable sol_y : OdeResult -> list (list float).

(** Splits the rows of a solution, up to the 26th. *)
Ltac unpack_rows sol :=
  let y := fresh "y" in
  generalize (sol_y sol); intros y;
  do 27 (try (destruct y as [| ? y]; simpl in *; try discriminate; try tauto)).

(** C7: the two leak-current baselines are the fixed initial values 0.01:
    every rate evaluation passes them to the constructor, whatever the
    state, and so does every evaluation of the rate function that
    [solve_EDPRmodel] hands to the integrator. *)
Theorem leak_baselines_are_fixed (t_dur alpha I_stim stim_start stim_end : float) :
  Ca_si0 = 0.01 /\ Ca_di0 = 0.01
  /\ (forall t k,
        every_call (@fixed_baselines Cell) (dkdt alpha I_stim stim_start stim_end t k))
  /\ every_call (@keeps_fixed_baselines Cell OdeResult)
       (solve_EDPRmodel sol_y t_dur alpha I_stim stim_start stim_end).
Proof.
  split; [reflexivity |]. split; [reflexivity |].
  split; [intros t k; apply dkdt_fixed_baselines |].
  simpl. split.
  { intros a b Hab. injection Hab as <- <-. split; reflexivity. }
  intros init_cell.
  repeat (split; [exact I |]; intros ?; untuple; simpl).
  split; [intros t k; apply dkdt_fixed_baselines |].
  intros sol. unpack_rows sol.
Qed.

(** *** Under a handler *)

Section UnderHandler.

Variable W : Type.
Variable h : handler (driver_call Cell OdeResult) W.
Variables t_dur alpha I_stim stim_start stim_end : float.

(** The driver is its initial values followed by the integration; what the
    initial values compute is not used. *)
Lemma run_solve_EDPRmodel (w : W) :
  run h (solve_EDPRmodel sol_y t_dur alpha I_stim stim_start stim_end) w =
    match run h (initial_values alpha) w with
    | (Ok _, w1) =>
        run h (integrate sol_y (dkdt alpha I_stim stim_start stim_end) t_dur) w1
    | (Err e, w1) => (Err e, w1)
    end.
Proof.
  unfold solve_EDPRmodel, initial_values, integrate, init_cell_call. simpl.
  answer h. answer h. untuple. simpl. answer h. untuple. simpl.
  do 28 (answer h; simpl).
  reflexivity.
Qed.

Lemma init_cell_call_nonphysical :
  (alpha <=? 0) = true -> nonphysical (init_cell_call (Cell := Cell) alpha) = true.
Proof.
  intros Halpha. unfold init_cell_call, nonphysical.
  rewrite Halpha. rewrite orb_true_r. reflexivity.
Qed.

End UnderHandler.

(** C10: what the initial values compute has no part in the result.  Under
    two handlers that agree on the integrator and under which the initial
    values are computed without an error and leave the same world, whatever
    the potentials and charges they return, [solve_EDPRmodel] has the same
    outcome: that of integrating [dkdt] from [k0] over [(0, t_dur)]. *)
Theorem initial_values_are_discarded (W : Type)
    (h1 h2 : handler (driver_call Cell OdeResult) W)
    (t_dur alpha I_stim stim_start stim_end : float) (w w1 : W) :
  (forall f t_span y0 max_step w',
     h1 _ (solve_ivp f t_span y0 max_step) w' = h2 _ (solve_ivp f t_span y0 max_step) w') ->
  run h1 (initial_values alpha) w = (Ok tt, w1) ->
  run h2 (initial_values alpha) w = (Ok tt, w1) ->
  run h1 (solve_EDPRmodel sol_y t_dur alpha I_stim stim_start stim_end) w
  = run h1 (integrate sol_y (dkdt alpha I_stim stim_start stim_end) t_dur) w1
  /\ run h2 (solve_EDPRmodel sol_y t_dur alpha I_stim stim_start stim_end) w
     = run h1 (solve_EDPRmodel sol_y t_dur alpha I_stim stim_start stim_end) w.
Proof.
  intros Hsame H1 H2. rewrite !run_solve_EDPRmodel, H1, H2.
  split; [reflexivity |].
  unfold integrate. simpl. rewrite Hsame.
  match goal with
  | |- context [h2 ?X ?c ?w] => destruct (h2 X c w) as [[sol | e] w2]; [| reflexivity]
  end.
  unpack_rows sol; reflexivity.
Qed.

End Solve.

(** ** The theorems on the closed instance *)

Example dkdt_inside_window :
  run (Fixture.collaborators false) (dkdt 2 28e-12 10 20 15 k0) tt
  = (Ok Fixture.stimulated_rates, tt).
Proof. vm_compute. reflexivity. Qed.

Example dkdt_at_onset :
  run (Fixture.collaborators false) (dkdt 2 28e-12 10 20 10 k0) tt
  = run (Fixture.collaborators false) (dkdt_unstimulated 2 k0) tt.
Proof. vm_compute. reflexivity. Qed.

Example dkdt_at_nan :
  run (Fixture.collaborators false) (dkdt 2 28e-12 10 20 nan k0) tt
  = run (Fixture.collaborators false) (dkdt_unstimulated 2 k0) tt.
Proof. vm_compute. reflexivity. Qed.

Example dkdt_short_state :
  run (Fixture.collaborators false) (dkdt 2 28e-12 10 20 15 [18; 140; 18]) tt
  = (Err ValueError, tt).
Proof. reflexivity. Qed.

Lemma fixture_collaborators_pure (validating : bool) :
  pure_handler (Fixture.collaborators validating).
Proof.
  intros X c. exists (fst (Fixture.collaborators validating c tt)).
  intros []. destruct c; simpl.
  - match goal with |- context [if ?b then _ else _] => destruct b end; reflexivity.
  - reflexivity.
  - reflexivity.
  - destruct (I_stim =? 0); reflexivity.
Qed.

Lemma fixture_rejects_nonphysical (d : float) :
  rejects_nonphysical (Fixture.environment true d).
Proof.
  assert (H : forall X (c : model_call Fixture.Cell X) w,
             nonphysical c = true ->
             Fixture.collaborators true c w = (Err ParameterValidityError, w)).
  { intros X c w Hc. destruct c; try discriminate Hc.
    unfold Fixture.collaborators. rewrite Hc. reflexivity. }
  intros c w Hc. exists w. simpl. apply H. exact Hc.
Qed.

(** On the instance at [t = 15]: the injector works on positions 4 and 5. *)
Lemma injection_adjusts_somatic_pair_at_15 :
  injection_pair 4 5 (Fixture.collaborators true) 2 28e-12 10 20 15 k0 tt.
Proof.
  apply injection_adjusts_somatic_pair. reflexivity.
Defined.

(** C2, as it is stated, fails: at [t = 15] on the instance the rate of
    [K_de], at position 7, is neither handed to the injector nor replaced. *)
Lemma injection_does_not_adjust_dendritic_rate :
  ~ injection_pair 4 7 (Fixture.collaborators true) 2 28e-12 10 20 15 k0 tt.
Proof.
  intros H.
  eassert (Hsnap : run (Fixture.collaborators true) (snapshot 2 k0) tt = _)
    by (vm_compute; reflexivity).
  eassert (Hun : run (Fixture.collaborators true) (dkdt_unstimulated 2 k0) tt = _)
    by (vm_compute; reflexivity).
  specialize (H _ _ _ _ Hsnap Hun).
  apply (f_equal (fun r => match fst r with
                           | Ok out => nth 7 out 0 =? 8
                           | Err _ => false
                           end)) in H.
  vm_compute in H. discriminate H.
Qed.

(** On the instance at [t = 15]: [Fixture.stimulated_rates] against the
    unstimulated rates. *)
Lemma stimulus_changes_only_somatic_potassium_at_15 :
  exists out0 w0,
    run (Fixture.collaborators true) (dkdt_unstimulated 2 k0) tt = (Ok out0, w0)
    /\ List.length Fixture.stimulated_rates = 26%nat /\ List.length out0 = 26%nat
    /\ forall i, i <> 4%nat -> i <> 5%nat ->
                 nth_error Fixture.stimulated_rates i = nth_error out0 i.
Proof.
  apply (stimulus_changes_only_somatic_potassium
           Fixture.Cell unit (Fixture.collaborators true) 2 28e-12 10 20 15 k0 tt tt).
  - reflexivity.
  - vm_compute. reflexivity.
Defined.

Lemma fixture_answers_all : answers_all (Fixture.collaborators false).
Proof.
  intros X c []. destruct c; simpl;
    try (destruct (I_stim =? 0)); eexists; eexists; reflexivity.
Qed.

(** On the instance at [t = 15] and the initial state [k0]. *)
Lemma dkdt_aligned_with_state_at_15 :
  (exists out w',
     run (Fixture.collaborators false) (dkdt 2 28e-12 10 20 15 k0) tt = (Ok out, w'))
  /\ exists (new : model_call Fixture.Cell Fixture.Cell) cell w1 r w2 m w3 p,
       Fixture.collaborators false new tt = (Ok cell, w1)
       /\ Fixture.collaborators false (cell_dkdt cell) w1 = (Ok r, w2)
       /\ Fixture.collaborators false (cell_dmdt cell) w2 = (Ok m, w3)
       /\ (if (10 <? 15) && (15 <? 20)
           then Fixture.collaborators false
                  (somatic_injection_current cell (fst (somatic_K r))
                     (snd (somatic_K r)) 1.0 28e-12) w3 = (Ok p, tt)
           else p = somatic_K r /\ tt = w3)
       /\ forall i v,
            nth_error state_order i = Some v ->
            passed v new = nth_error k0 i
            /\ nth_error Fixture.stimulated_rates i = Some (rate_of r m p v).
Proof.
  pose proof (dkdt_aligned_with_state
                Fixture.Cell unit (Fixture.collaborators false) 2 28e-12 10 20 15 k0 tt)
    as [Hreturns Haligned].
  split.
  - apply Hreturns; [apply fixture_answers_all | reflexivity].
  - apply Haligned. vm_compute. reflexivity.
Defined.

(** On the instance: diagnostics that all return 0 against diagnostics that
    all return 1. *)
Lemma initial_values_are_discarded_on_fixture :
  run (Fixture.environment true 0) (solve_EDPRmodel Fixture.sol_y 30 2 28e-12 10 20) tt
  = run (Fixture.environment true 0)
      (integrate Fixture.sol_y (dkdt 2 28e-12 10 20) 30) tt
  /\ run (Fixture.environment true 1) (solve_EDPRmodel Fixture.sol_y 30 2 28e-12 10 20) tt
     = run (Fixture.environment true 0)
         (solve_EDPRmodel Fixture.sol_y 30 2 28e-12 10 20) tt.
Proof.
  apply initial_values_are_discarded.
  - intros f t_span y0 max_step w'. reflexivity.
  - vm_compute. reflexivity.
  - vm_compute. reflexivity.
Defined.

(** * Further properties *)

(** ** More on comparisons *)

Lemma SFcompare_Lt_Gt (x y : spec_float) :
  SFcompare x y = Some Lt -> SFcompare y x = Some Gt.
Proof.
  destruct x as [sx | sx | | sx mx ex], y as [sy | sy | | sy my ey];
    simpl; try discriminate; try congruence;
    repeat match goal with b : bool |- _ => destruct b end;
    simpl; try discriminate; try congruence.
  all: rewrite (Z.compare_antisym ex ey);
    destruct (Z.compare ex ey) eqn:He; simpl; try discriminate; try congruence.
  all: change (Pos.compare_cont Eq ?a ?b) with (Pos.compare a b);
    rewrite (Pos.compare_antisym mx my);
    destruct (Pos.compare mx my); simpl; try discriminate; congruence.
Qed.

(** [a < b] fails when [b <= a]. *)
Lemma ltb_false_of_leb (a b : float) : (b <=? a) = true -> (a <? b) = false.
Proof.
  rewrite FloatAxioms.leb_spec, FloatAxioms.ltb_spec. unfold SFleb, SFltb.
  destruct (SFcompare (Prim2SF a) (Prim2SF b)) as [[] |] eqn:Hab; try reflexivity.
  rewrite (SFcompare_Lt_Gt _ _ Hab). discriminate.
Qed.

Lemma SFcompare_nan (x y : spec_float) :
  SFeqb x x = false -> SFcompare x y = None /\ SFcompare y x = None.
Proof.
  unfold SFeqb.
  destruct x as [sx | sx | | sx mx ex]; simpl.
  - discriminate.
  - destruct sx; discriminate.
  - intros _. destruct y; split; reflexivity.
  - destruct sx; rewrite Z.compare_refl, Pos.compare_cont_refl; discriminate.
Qed.

(** [nan] is below nothing and above nothing. *)
Lemma ltb_nan (x y : float) :
  is_nan x = true -> (x <? y) = false /\ (y <? x) = false.
Proof.
  unfold is_nan. rewrite FloatAxioms.eqb_spec, !FloatAxioms.ltb_spec.
  intros Hx. apply negb_true_iff in Hx.
  destruct (SFcompare_nan _ (Prim2SF y) Hx) as [H1 H2].
  unfold SFltb. rewrite H1, H2. split; reflexivity.
Qed.

(** ** More on the rate function *)

Section RateFunctionEdges.

Variable Cell : Type.
Variables alpha I_stim stim_start stim_end : float.

(** Outside the window an evaluation is the unstimulated one, call for
    call. *)
Lemma dkdt_outside_window (t : float) (k : list float) :
  (t >? stim_start) && (t <? stim_end) = false ->
  dkdt (Cell := Cell) alpha I_stim stim_start stim_end t k = dkdt_unstimulated alpha k.
Proof.
  intros Hout. unpack k; try reflexivity. rewrite Hout. reflexivity.
Qed.

(** On a state vector that has not 26 components an evaluation is the
    [ValueError] of the unpacking. *)
Lemma dkdt_wrong_length (t : float) (k : list float) :
  List.length k <> 26%nat ->
  dkdt (Cell := Cell) alpha I_stim stim_start stim_end t k = Raise ValueError.
Proof.
  intros Hlen.
  do 27 (try (destruct k as [| ? k])); simpl; try reflexivity.
  exfalso. apply Hlen. reflexivity.
Qed.

(** X1: the rate function raises nothing of its own on a state vector of
    26 components; on a vector of any other length it is the [ValueError]
    of the unpacking and nothing else: no model is constructed and no call
    is made. *)
Theorem dkdt_own_errors (t : float) (k : list float) :
  (List.length k <> 26%nat ->
   dkdt (Cell := Cell) alpha I_stim stim_start stim_end t k = Raise ValueError)
  /\ (List.length k = 26%nat ->
      forall e, ~ raises e (dkdt (Cell := Cell) alpha I_stim stim_start stim_end t k)).
Proof.
  split; [apply dkdt_wrong_length |].
  intros Hlen. unpack k.
  intros e [cell [r H]]. untuple. simpl in H.
  destruct H as [m H]. untuple. simpl in H.
  destruct ((t >? stim_start) && (t <? stim_end)); simpl in H.
  - destruct H as [p H]. untuple. exact H.
  - exact H.
Qed.

(** X3: a window whose end is not after its start ([stim_end <=
    stim_start]) is empty: no time is inside it, and every evaluation is
    the unstimulated one. *)
Theorem reversed_window_is_empty :
  (stim_end <=? stim_start) = true ->
  forall t k,
    (stim_start <? t) && (t <? stim_end) = false
    /\ dkdt (Cell := Cell) alpha I_stim stim_start stim_end t k
       = dkdt_unstimulated alpha k.
Proof.
  intros Hrev t k.
  assert (Hout : (stim_start <? t) && (t <? stim_end) = false).
  { destruct (stim_start <? t) eqn:H1; [| reflexivity].
    destruct (t <? stim_end) eqn:H2; [| reflexivity].
    pose proof (ltb_trans _ _ _ H1 H2) as H3.
    rewrite (ltb_false_of_leb _ _ Hrev) in H3. discriminate H3. }
  split; [exact Hout | apply dkdt_outside_window; exact Hout].
Qed.

(** X4: a time that is [nan] is inside no window, and a window with a bound
    that is [nan] contains no time: the evaluation is the unstimulated one. *)
Theorem nan_disables_stimulus (t : float) (k : list float) :
  is_nan t = true \/ is_nan stim_start = true \/ is_nan stim_end = true ->
  (stim_start <? t) && (t <? stim_end) = false
  /\ dkdt (Cell := Cell) alpha I_stim stim_start stim_end t k
     = dkdt_unstimulated alpha k.
Proof.
  intros Hnan.
  assert (Hout : (stim_start <? t) && (t <? stim_end) = false).
  { destruct Hnan as [Ht | [Hs | He]].
    - destruct (ltb_nan t stim_start Ht) as [_ H]. rewrite H. reflexivity.
    - destruct (ltb_nan stim_start t Hs) as [H _]. rewrite H. reflexivity.
    - destruct (ltb_nan stim_end t He) as [_ H]. rewrite H. apply andb_false_r. }
  split; [exact Hout | apply dkdt_outside_window; exact Hout].
Qed.

(** X6: an evaluation of a state vector of 26 components that is not cut
    short by a call that raises constructs one model and no more, calls the
    injector once inside the window and not at all outside it, and makes
    four calls in all inside the window and three outside it. *)
Theorem one_snapshot_per_evaluation (t : float) (k : list float) :
  List.length k = 26%nat ->
  let inside := (stim_start <? t) && (t <? stim_end) in
  makes (@is_constructor Cell) 1 (dkdt alpha I_stim stim_start stim_end t k)
  /\ makes (@is_injector Cell) (if inside then 1 else 0)
       (dkdt alpha I_stim stim_start stim_end t k)
  /\ makes (@any_call Cell) (if inside then 4 else 3)
       (dkdt alpha I_stim stim_start stim_end t k).
Proof.
  intros Hlen. cbv zeta. change (stim_start <? t) with (t >? stim_start).
  unpack k.
  destruct ((t >? stim_start) && (t <? stim_end)); simpl.
  - repeat split.
    + exists 0%nat. split; [reflexivity |]. intros cell r. untuple. simpl.
      intros m. untuple. simpl. intros p. untuple. reflexivity.
    + intros cell r. untuple. simpl. intros m. untuple. simpl.
      exists 0%nat. split; [reflexivity |]. intros p. untuple. reflexivity.
    + eexists. split; [reflexivity |]. intros cell.
      eexists. split; [reflexivity |]. intros r. untuple. simpl.
      eexists. split; [reflexivity |]. intros m. untuple. simpl.
      eexists. split; [reflexivity |]. intros p. untuple. reflexivity.
  - repeat split.
    + exists 0%nat. split; [reflexivity |]. intros cell r. untuple. simpl.
      intros m. untuple. reflexivity.
    + intros cell r. untuple. simpl. intros m. untuple. reflexivity.
    + eexists. split; [reflexivity |]. intros cell.
      eexists. split; [reflexivity |]. intros r. untuple. simpl.
      eexists. split; [reflexivity |]. intros m. untuple. reflexivity.
Qed.

Section UnderHandler.

Variable W : Type.
Variable h : handler (model_call Cell) W.

(** X2: whenever an evaluation returns, the state vector had 26 components
    and the rate vector has as many. *)
Theorem dkdt_rates_have_state_length
    (t : float) (k : list float) (w w' : W) (out : list float) :
  run h (dkdt alpha I_stim stim_start stim_end t k) w = (Ok out, w') ->
  List.length k = 26%nat /\ List.length out = List.length k.
Proof.
  intros Hrun.
  assert (Hk : List.length k = 26%nat).
  { destruct (Nat.eq_dec (List.length k) 26) as [Hlen | Hlen]; [exact Hlen |].
    rewrite (dkdt_wrong_length t k Hlen) in Hrun. discriminate Hrun. }
  split; [exact Hk |]. rewrite Hk.
  rewrite run_dkdt in Hrun.
  destruct (run h (snapshot alpha k) w) as [[cell | e] w1]; [| discriminate].
  destruct (h _ (cell_dkdt cell) w1) as [[r | e] w2]; [| discriminate].
  destruct (h _ (cell_dmdt cell) w2) as [[m | e] w3]; [| discriminate].
  destruct ((t >? stim_start) && (t <? stim_end)).
  - match type of Hrun with
    | context [h ?X ?c ?w] => destruct (h X c w) as [[p | e] w4]; [| discriminate]
    end.
    injection Hrun as <- <-. reflexivity.
  - injection Hrun as <- <-. reflexivity.
Qed.

(** X5: an evaluation fails exactly when the unstimulated evaluation fails,
    with its error and in the world it leaves, or when, inside the window,
    the unstimulated evaluation returns and the injector then raises. *)
Theorem dkdt_fails_iff (t : float) (k : list float) (w w' : W) (e : exn) :
  run h (dkdt alpha I_stim stim_start stim_end t k) w = (Err e, w')
  <-> run h (dkdt_unstimulated alpha k) w = (Err e, w')
      \/ ((stim_start <? t) && (t <? stim_end) = true
          /\ exists cell w1 out0 w0,
               run h (snapshot alpha k) w = (Ok cell, w1)
               /\ run h (dkdt_unstimulated alpha k) w = (Ok out0, w0)
               /\ h _ (somatic_injection_current cell (nth 4 out0 0) (nth 5 out0 0)
                         1.0 I_stim) w0 = (Err e, w')).
Proof.
  change (stim_start <? t) with (t >? stim_start).
  rewrite run_dkdt, run_dkdt_unstimulated.
  destruct (run h (snapshot alpha k) w) as [[cell | e1] w1].
  2: { split; [intros H; left; exact H |].
       intros [H | (_ & c & x & o & y & H & _)]; [exact H | discriminate H]. }
  destruct (h _ (cell_dkdt cell) w1) as [[r | e1] w2].
  2: { split; [intros H; left; exact H |].
       intros [H | (_ & c & x & o & y & _ & H & _)]; [exact H | discriminate H]. }
  destruct (h _ (cell_dmdt cell) w2) as [[m | e1] w3].
  2: { split; [intros H; left; exact H |].
       intros [H | (_ & c & x & o & y & _ & H & _)]; [exact H | discriminate H]. }
  untuple. simpl.
  destruct ((t >? stim_start) && (t <? stim_end)).
  - split.
    + intros H. right. split; [reflexivity |].
      eexists. eexists. eexists. eexists.
      split; [reflexivity |]. split; [reflexivity |]. simpl.
      match type of H with
      | context [h ?X ?c ?w] => destruct (h X c w) as [[p | e1] w4]
      end; [discriminate H | injection H as -> ->; reflexivity].
    + intros [H | (_ & c & x & o & y & Hc & Ho & H)]; [discriminate H |].
      injection Hc as <- <-. injection Ho as <- <-. simpl in H.
      rewrite H. reflexivity.
  - split; [intros H; discriminate H |].
    intros [H | (H & _)]; discriminate H.
Qed.

End UnderHandler.

End RateFunctionEdges.

(** ** More on the driver *)

Section SolveEdges.

Variable Cell : Type.
Variable OdeResult : Type.
Variable sol_y : OdeResult -> list (list float).

(** The unpacking of the rows of a solution is a check of their number. *)
Lemma rows_check (E : Type -> Type) (rows : list (list float)) (sol : OdeResult) :
  match rows with
  | [Na_si; Na_se; Na_di; Na_de; K_si; K_se; K_di; K_de;
     Cl_si; Cl_se; Cl_di; Cl_de; Ca_si; Ca_se; Ca_di; Ca_de;
     X_si; X_se; X_di; X_de; n; h; s; c; q; z] => Ret sol
  | _ => Raise ValueError
  end
  = if Nat.eqb (List.length rows) 26 then Ret sol else (Raise ValueError : prog E OdeResult).
Proof. unpack rows; reflexivity. Qed.

(** X9: every execution of the driver calls the integrator once and
    constructs one model of its own, the initial cell. *)
Theorem solve_EDPRmodel_integrates_once (t_dur alpha I_stim stim_start stim_end : float) :
  makes (@is_integrator Cell OdeResult) 1
    (solve_EDPRmodel sol_y t_dur alpha I_stim stim_start stim_end)
  /\ makes (@is_driver_constructor Cell OdeResult) 1
       (solve_EDPRmodel sol_y t_dur alpha I_stim stim_start stim_end).
Proof.
  split; simpl.
  - intros init_cell mp. untuple. simpl. intros rp. untuple. simpl.
    do 28 intros ?.
    exists 0%nat. split; [reflexivity |]. intros sol.
    generalize (sol_y sol); intros y. unpack y; reflexivity.
  - exists 0%nat. split; [reflexivity |].
    intros init_cell mp. untuple. simpl. intros rp. untuple. simpl.
    do 28 intros ?. intros sol.
    generalize (sol_y sol); intros y. unpack y; reflexivity.
Qed.

Section UnderHandler.

Variable W : Type.
Variable h : handler (driver_call Cell OdeResult) W.
Variables t_dur alpha I_stim stim_start stim_end : float.

Lemma run_integrate (w : W) :
  run h (integrate sol_y (dkdt alpha I_stim stim_start stim_end) t_dur) w =
    match h _ (solve_ivp (dkdt alpha I_stim stim_start stim_end) (0, t_dur) k0 1e-4) w with
    | (Ok sol, w') =>
        if Nat.eqb (List.length (sol_y sol)) 26 then (Ok sol, w') else (Err ValueError, w')
    | (Err e, w') => (Err e, w')
    end.
Proof.
  unfold integrate. simpl.
  destruct (h _ _ w) as [[sol | e] w']; [| reflexivity].
  rewrite rows_check. destruct (Nat.eqb _ 26); reflexivity.
Qed.

(** A solution that the driver returns has 26 rows. *)
Lemma solve_EDPRmodel_rows (w w' : W) (sol : OdeResult) :
  run h (solve_EDPRmodel sol_y t_dur alpha I_stim stim_start stim_end) w = (Ok sol, w') ->
  List.length (sol_y sol) = 26%nat.
Proof.
  rewrite run_solve_EDPRmodel.
  destruct (run h (initial_values alpha) w) as [[[] | e] w1]; [| discriminate].
  rewrite run_integrate.
  destruct (h _ _ w1) as [[sol1 | e] w2]; [| discriminate].
  destruct (Nat.eqb (List.length (sol_y sol1)) 26) eqn:Hrows; [| discriminate].
  intros Hrun. injection Hrun as <- <-. apply Nat.eqb_eq. exact Hrows.
Qed.

(** X7: a solution that the driver returns is the one that the integrator
    returned for [dkdt], [(0, t_dur)], [k0] and [max_step = 1e-4], in the
    world that the initial values left, and it has 26 rows. *)
Theorem solve_EDPRmodel_returns_integrator_solution (w w' : W) (sol : OdeResult) :
  run h (solve_EDPRmodel sol_y t_dur alpha I_stim stim_start stim_end) w = (Ok sol, w') ->
  List.length (sol_y sol) = 26%nat
  /\ exists w1,
       run h (initial_values alpha) w = (Ok tt, w1)
       /\ h _ (solve_ivp (dkdt alpha I_stim stim_start stim_end) (0, t_dur) k0 1e-4) w1
          = (Ok sol, w').
Proof.
  rewrite run_solve_EDPRmodel.
  destruct (run h (initial_values alpha) w) as [[[] | e] w1]; [| discriminate].
  rewrite run_integrate.
  destruct (h _ _ w1) as [[sol1 | e] w2] eqn:Hint; [| discriminate].
  destruct (Nat.eqb (List.length (sol_y sol1)) 26) eqn:Hrows; [| discriminate].
  intros Hrun. injection Hrun as <- <-.
  split; [apply Nat.eqb_eq; exact Hrows |].
  exists w1. split; [reflexivity | exact Hint].
Qed.

(** X8: the driver fails exactly when its initial values fail, although
    nothing of them is used, or the integrator raises, or the integrator
    returns a solution that has not 26 rows, which is a [ValueError]. *)
Theorem solve_EDPRmodel_fails_iff (w w' : W) (e : exn) :
  run h (solve_EDPRmodel sol_y t_dur alpha I_stim stim_start stim_end) w = (Err e, w')
  <-> run h (initial_values alpha) w = (Err e, w')
      \/ exists w1,
           run h (initial_values alpha) w = (Ok tt, w1)
           /\ (h _ (solve_ivp (dkdt alpha I_stim stim_start stim_end) (0, t_dur) k0 1e-4) w1
               = (Err e, w')
               \/ exists sol,
                    h _ (solve_ivp (dkdt alpha I_stim stim_start stim_end)
                           (0, t_dur) k0 1e-4) w1 = (Ok sol, w')
                    /\ List.length (sol_y sol) <> 26%nat /\ e = ValueError).
Proof.
  rewrite run_solve_EDPRmodel.
  destruct (run h (initial_values alpha) w) as [[[] | e1] w1].
  2: { split; [intros H; left; injection H as -> ->; reflexivity |].
       intros [H | (x & H & _)]; [injection H as -> ->; reflexivity | discriminate H]. }
  rewrite run_integrate.
  destruct (h _ _ w1) as [[sol | e1] w2] eqn:Hint.
  - destruct (Nat.eqb (List.length (sol_y sol)) 26) eqn:Hrows.
    + split; [intros H; discriminate H |].
      intros [H | (x & Hx & H)]; [discriminate H |].
      injection Hx as <-. rewrite Hint in H.
      destruct H as [H | (sol1 & H & Hlen & _)]; [discriminate H |].
      injection H as <- <-. apply Nat.eqb_eq in Hrows. contradiction.
    + split.
      * intros H. injection H as <- <-. right. exists w1. split; [reflexivity |].
        right. exists sol. split; [exact Hint |].
        split; [apply Nat.eqb_neq; exact Hrows | reflexivity].
      * intros [H | (x & Hx & H)]; [discriminate H |].
        injection Hx as <-. rewrite Hint in H.
        destruct H as [H | (sol1 & H & _ & ->)]; [discriminate H |].
        injection H as <- <-. reflexivity.
  - split.
    + intros H. right. exists w1. split; [reflexivity |]. left.
      rewrite Hint. exact H.
    + intros [H | (x & Hx & H)]; [discriminate H |].
      injection Hx as <-. rewrite Hint in H.
      destruct H as [H | (sol1 & H & _)]; [exact H | discriminate H].
Qed.

End UnderHandler.

End SolveEdges.

(** ** The example simulation *)

Section ScriptProperties.

Variable Cell : Type.
Variable ArrayCell : Type.
Variable OdeResult : Type.
Variable sol_y : OdeResult -> list (list float).
Variable sol_t : OdeResult -> list float.
Variable Artist : Type.

(** On a solution of 26 rows the rest of the script raises of its own only
    the [IndexError] of a first sample, for a calcium row without one. *)
Lemma postprocess_raises (sol : OdeResult) (e : exn) :
  List.length (sol_y sol) = 26%nat ->
  raises e (ExampleSimulation.postprocess Cell ArrayCell sol_y sol_t Artist sol) ->
  e = OtherError "IndexError"
  /\ (nth 12 (sol_y sol) [] = [] \/ nth 14 (sol_y sol) [] = []).
Proof.
  unfold ExampleSimulation.postprocess.
  generalize (sol_t sol). generalize (sol_y sol). intros rows t Hlen.
  unpack rows.
  match goal with
  | |- context [ExampleSimulation.first_sample _ _ _ _ ?a] => destruct a as [| x12 ?]
  end; simpl.
  { intros <-. split; [reflexivity | left; reflexivity]. }
  match goal with
  | |- context [ExampleSimulation.first_sample _ _ _ _ ?a] => destruct a as [| x14 ?]
  end; simpl.
  { intros <-. split; [reflexivity | right; reflexivity]. }
  intros [cell [mp H]]. untuple. simpl in H.
  destruct H as [rp H]. untuple. simpl in H.
  destruct H as (? & ? & ? & ? & ? & ? & ? & ? & H). destruct H.
Qed.

(** X11: on a solution of 26 rows the rest of the script raises of its own
    only for a calcium row without a sample, and then it is the
    [IndexError] of the first sample and nothing else: no model is
    constructed and nothing is plotted. *)
Theorem postprocess_own_errors (sol : OdeResult) :
  List.length (sol_y sol) = 26%nat ->
  (nth 12 (sol_y sol) [] = [] \/ nth 14 (sol_y sol) [] = [] ->
   ExampleSimulation.postprocess Cell ArrayCell sol_y sol_t Artist sol
   = Raise (OtherError "IndexError"))
  /\ (nth 12 (sol_y sol) [] <> [] -> nth 14 (sol_y sol) [] <> [] ->
      forall e, ~ raises e (ExampleSimulation.postprocess Cell ArrayCell sol_y sol_t Artist sol)).
Proof.
  intros Hlen. split.
  - revert Hlen. unfold ExampleSimulation.postprocess.
    generalize (sol_t sol). generalize (sol_y sol). intros rows t Hlen.
    unpack rows.
    intros [H | H]; subst; [reflexivity |].
    match goal with
    | |- context [ExampleSimulation.first_sample _ _ _ _ ?a] => destruct a; reflexivity
    end.
  - intros H12 H14 e Hraises.
    destruct (postprocess_raises sol e Hlen Hraises) as [_ [H | H]]; contradiction.
Qed.

(** X10: the script unpacks what the driver has checked: after a driver
    that returned, the rest of the script raises no [ValueError] of its
    own. *)
Theorem script_unpacks_checked_solution
    (W : Type) (h : handler (driver_call Cell OdeResult) W)
    (t_dur alpha I_stim stim_start stim_end : float) (w w' : W) (sol : OdeResult) :
  run h (solve_EDPRmodel sol_y t_dur alpha I_stim stim_start stim_end) w = (Ok sol, w') ->
  ~ raises ValueError (ExampleSimulation.postprocess Cell ArrayCell sol_y sol_t Artist sol).
Proof.
  intros Hrun Hraises.
  pose proof (solve_EDPRmodel_rows
                Cell OdeResult sol_y W h t_dur alpha I_stim stim_start stim_end
                w w' sol Hrun) as Hrows.
  destruct (postprocess_raises sol ValueError Hrows Hraises) as [H _].
  discriminate H.
Qed.

Lemma every_call_impl (E : Type -> Type) (P Q : forall X, E X -> Prop) (A : Type)
    (p : prog E A) :
  (forall X (c : E X), P X c -> Q X c) -> every_call P p -> every_call Q p.
Proof.
  intros HPQ. induction p as [a | e | X c k IH]; simpl; try (intros; exact I).
  intros [Hc Hk]. split; [apply HPQ; exact Hc | intros x; apply IH; apply Hk].
Qed.

(** X12: the model that the script constructs over the solution is given
    the first samples of the rows [Ca_si] and [Ca_di], rows 12 and 14, as
    its baselines; when these are the initial values, as for a solution
    that starts at [k0], they are the 0.01 and 0.01 of every rate
    evaluation. *)
Theorem script_baselines_are_first_samples (sol : OdeResult) :
  every_call
    (fun X (c : ExampleSimulation.script_call Cell ArrayCell OdeResult Artist X) =>
       forall a b,
         ExampleSimulation.array_baselines c = Some (a, b) ->
         hd_error (nth 12 (sol_y sol) []) = Some a
         /\ hd_error (nth 14 (sol_y sol) []) = Some b)
    (ExampleSimulation.postprocess Cell ArrayCell sol_y sol_t Artist sol)
  /\ (hd_error (nth 12 (sol_y sol) []) = Some Ca_si0 ->
      hd_error (nth 14 (sol_y sol) []) = Some Ca_di0 ->
      every_call
        (fun X (c : ExampleSimulation.script_call Cell ArrayCell OdeResult Artist X) =>
           forall a b,
             ExampleSimulation.array_baselines c = Some (a, b) -> a = 0.01 /\ b = 0.01)
        (ExampleSimulation.postprocess Cell ArrayCell sol_y sol_t Artist sol)).
Proof.
  assert (Hfirst :
    every_call
      (fun X (c : ExampleSimulation.script_call Cell ArrayCell OdeResult Artist X) =>
         forall a b,
           ExampleSimulation.array_baselines c = Some (a, b) ->
           hd_error (nth 12 (sol_y sol) []) = Some a
           /\ hd_error (nth 14 (sol_y sol) []) = Some b)
      (ExampleSimulation.postprocess Cell ArrayCell sol_y sol_t Artist sol)).
  { unfold ExampleSimulation.postprocess.
    generalize (sol_t sol). generalize (sol_y sol). intros rows t.
    do 27 (try (destruct rows as [| ? rows])); simpl; try exact I.
    match goal with
    | |- context [ExampleSimulation.first_sample _ _ _ _ ?a] =>
        destruct a as [| x12 ?]; simpl; [exact I |]
    end.
    match goal with
    | |- context [ExampleSimulation.first_sample _ _ _ _ ?a] =>
        destruct a as [| x14 ?]; simpl; [exact I |]
    end.
    split; [intros u v Huv; injection Huv as <- <-; split; reflexivity |].
    intros cell. split; [intros u v Huv; discriminate Huv |].
    intros mp. untuple. simpl. split; [intros u v Huv; discriminate Huv |].
    intros rp. untuple. simpl.
    repeat (split; [intros u v Huv; discriminate Huv |]; intros ?).
    exact I. }
  split; [exact Hfirst |].
  intros H12 H14. revert Hfirst. apply every_call_impl.
  intros X c Hc a b Hab. destruct (Hc a b Hab) as [Ha Hb].
  rewrite H12 in Ha. rewrite H14 in Hb.
  injection Ha as <-. injection Hb as <-. split; reflexivity.
Qed.

Section UnderHandler.

Variable W : Type.
Variable h : handler (ExampleSimulation.script_call Cell ArrayCell OdeResult Artist) W.

(** A program of the driver runs from the script as it runs under the part
    of the handler that answers the driver. *)
Lemma run_lift (A : Type) (p : prog (driver_call Cell OdeResult) A) (w : W) :
  run h (ExampleSimulation.lift ArrayCell Artist p) w
  = run (ExampleSimulation.driver_part h) p w.
Proof.
  revert w. induction p as [a | e | X c k IH]; intros w; simpl; try reflexivity.
  unfold ExampleSimulation.driver_part at 1.
  destruct (h X (ExampleSimulation.driver c) w) as [[x | e] w1];
    [apply IH | reflexivity].
Qed.

(** X13: the script is the clock, the driver with the settings of the
    script and the rest of the script, one after the other: when the driver
    fails the script ends in the driver's error, in the world that the
    driver left, and nothing is plotted; when it returns the script goes on
    with its solution. *)
Theorem script_follows_driver (w w0 : W) (start_time : float) :
  h _ ExampleSimulation.time_time w = (Ok start_time, w0) ->
  (forall e w1,
     run (ExampleSimulation.driver_part h)
       (solve_EDPRmodel sol_y ExampleSimulation.t_dur ExampleSimulation.alpha
          ExampleSimulation.I_stim ExampleSimulation.stim_start
          ExampleSimulation.stim_end) w0 = (Err e, w1) ->
     run h (ExampleSimulation.example_simulation Cell ArrayCell sol_y sol_t Artist) w
     = (Err e, w1))
  /\ (forall sol w1,
        run (ExampleSimulation.driver_part h)
          (solve_EDPRmodel sol_y ExampleSimulation.t_dur ExampleSimulation.alpha
             ExampleSimulation.I_stim ExampleSimulation.stim_start
             ExampleSimulation.stim_end) w0 = (Ok sol, w1) ->
        run h (ExampleSimulation.example_simulation Cell ArrayCell sol_y sol_t Artist) w
        = run h (ExampleSimulation.postprocess Cell ArrayCell sol_y sol_t Artist sol) w1).
Proof.
  intros Htime.
  assert (Hrun : forall r,
    run (ExampleSimulation.driver_part h)
      (solve_EDPRmodel sol_y ExampleSimulation.t_dur ExampleSimulation.alpha
         ExampleSimulation.I_stim ExampleSimulation.stim_start
         ExampleSimulation.stim_end) w0 = r ->
    run h (ExampleSimulation.example_simulation Cell ArrayCell sol_y sol_t Artist) w
    = match r with
      | (Ok sol, w1) =>
          run h (ExampleSimulation.postprocess Cell ArrayCell sol_y sol_t Artist sol) w1
      | (Err e, w1) => (Err e, w1)
      end).
  { intros r Hr. unfold ExampleSimulation.example_simulation.
    rewrite run_bind. unfold call. cbn [run]. rewrite Htime.
    rewrite run_bind, run_lift, Hr. reflexivity. }
  split; intros; erewrite Hrun by eassumption; reflexivity.
Qed.

End UnderHandler.

End ScriptProperties.

(** ** The further properties on the closed instance *)

(** A state vector of three components, and the initial state. *)
Lemma dkdt_own_errors_on_fixture :
  dkdt (Cell := Fixture.Cell) 2 28e-12 10 20 15 [18; 140; 18] = Raise ValueError
  /\ forall e, ~ raises e (dkdt (Cell := Fixture.Cell) 2 28e-12 10 20 15 k0).
Proof.
  split.
  - apply (proj1 (dkdt_own_errors Fixture.Cell 2 28e-12 10 20 15 [18; 140; 18])).
    discriminate.
  - apply (proj2 (dkdt_own_errors Fixture.Cell 2 28e-12 10 20 15 k0)). reflexivity.
Defined.

(** The evaluation of the initial state at [t = 15]. *)
Lemma dkdt_rates_have_state_length_at_15 :
  List.length k0 = 26%nat /\ List.length Fixture.stimulated_rates = List.length k0.
Proof.
  apply (dkdt_rates_have_state_length
           Fixture.Cell 2 28e-12 10 20 unit (Fixture.collaborators true) 15 k0 tt tt).
  vm_compute. reflexivity.
Defined.

(** The window of the example with its bounds exchanged. *)
Lemma reversed_window_is_empty_on_fixture :
  (20 <? 15) && (15 <? 10) = false
  /\ dkdt (Cell := Fixture.Cell) 2 28e-12 20 10 15 k0 = dkdt_unstimulated 2 k0.
Proof.
  apply reversed_window_is_empty. reflexivity.
Defined.

(** A time that is [nan], in the window of the example. *)
Lemma nan_disables_stimulus_on_fixture :
  (10 <? nan) && (nan <? 20) = false
  /\ dkdt (Cell := Fixture.Cell) 2 28e-12 10 20 nan k0 = dkdt_unstimulated 2 k0.
Proof.
  apply nan_disables_stimulus. left. reflexivity.
Defined.

(** The evaluation of the initial state at [t = 15], inside the window. *)
Lemma one_snapshot_per_evaluation_at_15 :
  makes (@is_constructor Fixture.Cell) 1 (dkdt 2 28e-12 10 20 15 k0)
  /\ makes (@is_injector Fixture.Cell) 1 (dkdt 2 28e-12 10 20 15 k0)
  /\ makes (@any_call Fixture.Cell) 4 (dkdt 2 28e-12 10 20 15 k0).
Proof.
  exact (one_snapshot_per_evaluation Fixture.Cell 2 28e-12 10 20 15 k0 eq_refl).
Defined.

(** The driver on the instance, with the settings of the example. *)
Lemma solve_EDPRmodel_returns_integrator_solution_on_fixture :
  exists sol,
    run (Fixture.environment true 0)
      (solve_EDPRmodel Fixture.sol_y 30 2 28e-12 10 20) tt = (Ok sol, tt)
    /\ List.length (Fixture.sol_y sol) = 26%nat
    /\ exists w1,
         run (Fixture.environment true 0) (initial_values 2) tt = (Ok tt, w1)
         /\ Fixture.environment true 0
              (solve_ivp (dkdt 2 28e-12 10 20) (0, 30) k0 1e-4) w1 = (Ok sol, tt).
Proof.
  eexists. split; [vm_compute; reflexivity |].
  apply (solve_EDPRmodel_returns_integrator_solution
           Fixture.Cell Fixture.OdeResult Fixture.sol_y unit
           (Fixture.environment true 0) 30 2 28e-12 10 20 tt tt).
  vm_compute. reflexivity.
Defined.

(** The solution of the driver on the instance, handed to the rest of the
    script. *)
Lemma script_unpacks_checked_solution_on_fixture :
  exists sol,
    run (Fixture.environment true 0)
      (solve_EDPRmodel Fixture.sol_y 30 2 28e-12 10 20) tt = (Ok sol, tt)
    /\ ~ raises ValueError
         (ExampleSimulation.postprocess Fixture.Cell (list ExampleSimulation.array)
            Fixture.sol_y Fixture.sol_t unit sol).
Proof.
  eexists. split; [vm_compute; reflexivity |].
  apply (script_unpacks_checked_solution
           Fixture.Cell (list ExampleSimulation.array) Fixture.OdeResult
           Fixture.sol_y Fixture.sol_t unit unit
           (Fixture.environment true 0) 30 2 28e-12 10 20 tt tt).
  vm_compute. reflexivity.
Defined.

(** A solution of 26 rows without a sample. *)
Lemma postprocess_own_errors_on_empty_solution :
  ExampleSimulation.postprocess Fixture.Cell (list ExampleSimulation.array)
    Fixture.sol_y Fixture.sol_t unit ExampleSimulation.empty_solution
  = Raise (OtherError "IndexError").
Proof.
  apply (proj1 (postprocess_own_errors
                  Fixture.Cell (list ExampleSimulation.array) Fixture.OdeResult
                  Fixture.sol_y Fixture.sol_t unit ExampleSimulation.empty_solution
                  eq_refl)).
  left. reflexivity.
Defined.

(** The script on the instance whose integrator gives up. *)
Lemma script_follows_driver_on_fixture :
  run ExampleSimulation.environment_without_integrator
    (ExampleSimulation.example_simulation Fixture.Cell (list ExampleSimulation.array)
       Fixture.sol_y Fixture.sol_t unit) tt
  = (Err (OtherError "RuntimeError"), tt).
Proof.
  apply (proj1 (script_follows_driver
                  Fixture.Cell (list ExampleSimulation.array) Fixture.OdeResult
                  Fixture.sol_y Fixture.sol_t unit unit
                  ExampleSimulation.environment_without_integrator tt tt 0 eq_refl)).
  vm_compute. reflexivity.
Defined.

(** The script on the instance, from the clock to [plt.show()]. *)
Example example_simulation_runs :
  run ExampleSimulation.environment
    (ExampleSimulation.example_simulation Fixture.Cell (list ExampleSimulation.array)
       Fixture.sol_y Fixture.sol_t unit) tt
  = (Ok tt, tt).
Proof. vm_compute. reflexivity. Qed.

(** * The stimulus, the initial charge and the construction inputs *)

(** ** The stimulus window *)

Section StimulusWindow.

Variable Cell : Type.
Variable W : Type.
Variable h : handler (model_call Cell) W.
Variables alpha I_stim stim_start stim_end : float.

(** C1: the rate function applies the stimulus if and only if [t] lies
    strictly within the window: under every handler it is the rate
    assembler, which hands the somatic potassium pair to the injector and
    returns the injector's pair in its place exactly when
    [stim_start < t < stim_end]; a call of the injector can be reached
    exactly then; and at [t = stim_start] and at [t = stim_end], as at
    every time outside the window, the evaluation is the unstimulated one,
    call for call. *)
Theorem dkdt_applies_stimulus_iff_strictly_inside (cell0 : Cell)
    (t : float) (k : list float) (w : W) :
  run h (dkdt alpha I_stim stim_start stim_end t k) w
  = rate_assembler h alpha I_stim stim_start stim_end t k w
  /\ (List.length k = 26%nat ->
      (reaches (@is_injection Cell) (dkdt alpha I_stim stim_start stim_end t k)
       <-> (stim_start <? t) && (t <? stim_end) = true))
  /\ ((stim_start <? t) && (t <? stim_end) = false ->
      dkdt (Cell := Cell) alpha I_stim stim_start stim_end t k = dkdt_unstimulated alpha k)
  /\ dkdt (Cell := Cell) alpha I_stim stim_start stim_end stim_start k
     = dkdt_unstimulated alpha k
  /\ dkdt (Cell := Cell) alpha I_stim stim_start stim_end stim_end k
     = dkdt_unstimulated alpha k.
Proof.
  split; [| split; [| split; [| split]]].
  - unfold rate_assembler, perturbed.
    rewrite run_dkdt, run_dkdt_unstimulated.
    change (t >? stim_start) with (stim_start <? t).
    destruct (run h (snapshot alpha k) w) as [[cell | e] w1]; [| reflexivity].
    destruct (h _ (cell_dkdt cell) w1) as [[r | e] w2]; [| reflexivity].
    destruct (h _ (cell_dmdt cell) w2) as [[m | e] w3]; [| reflexivity].
    destruct ((stim_start <? t) && (t <? stim_end)); [| reflexivity].
    untuple. simpl.
    match goal with
    | |- context [h ?X ?c ?w] => destruct (h X c w) as [[[a b] | e] w4]; reflexivity
    end.
  - intros Hlen. change (stim_start <? t) with (t >? stim_start).
    unpack k. split.
    + intros [[] | [cell [[] | [r H]]]]. untuple. simpl in H.
      destruct H as [[] | [m H]]. untuple. simpl in H.
      destruct ((t >? stim_start) && (t <? stim_end)); simpl in H.
      * reflexivity.
      * destruct H.
    + intros Hin. right. exists cell0. right.
      exists (0, 0, 0, 0, 0, 0, 0, 0, 0, 0, 0, 0, 0, 0, 0, 0, 0, 0, 0, 0). right.
      exists (0, 0, 0, 0, 0, 0). rewrite Hin. simpl. left. exact I.
  - apply dkdt_outside_window.
  - apply dkdt_outside_window. apply window_closed_at_start.
  - apply dkdt_outside_window. apply window_closed_at_end.
Qed.

End StimulusWindow.

(** On the instance: the rates at [t = 15], inside the window, are the
    unstimulated ones with the injector's pair at positions 4 and 5; at the
    onset [t = 10] and at the offset [t = 20] they are the unstimulated
    ones. *)
Lemma dkdt_applies_stimulus_iff_strictly_inside_at_15 :
  run (Fixture.collaborators true) (dkdt 2 28e-12 10 20 15 k0) tt
  = rate_assembler (Fixture.collaborators true) 2 28e-12 10 20 15 k0 tt
  /\ (reaches (@is_injection Fixture.Cell) (dkdt 2 28e-12 10 20 15 k0)
      <-> (10 <? 15) && (15 <? 20) = true)
  /\ dkdt (Cell := Fixture.Cell) 2 28e-12 10 20 nan k0 = dkdt_unstimulated 2 k0
  /\ dkdt (Cell := Fixture.Cell) 2 28e-12 10 20 10 k0 = dkdt_unstimulated 2 k0
  /\ dkdt (Cell := Fixture.Cell) 2 28e-12 10 20 20 k0 = dkdt_unstimulated 2 k0.
Proof.
  pose proof (dkdt_applies_stimulus_iff_strictly_inside
                Fixture.Cell unit (Fixture.collaborators true) 2 28e-12 10 20 []
                15 k0 tt) as (Hrun & Hiff & _ & Hstart & Hend).
  pose proof (dkdt_applies_stimulus_iff_strictly_inside
                Fixture.Cell unit (Fixture.collaborators true) 2 28e-12 10 20 []
                nan k0 tt) as (_ & _ & Hout & _ & _).
  split; [exact Hrun |]. split; [exact (Hiff eq_refl) |].
  split; [exact (Hout eq_refl) |]. split; [exact Hstart | exact Hend].
Defined.

Example rate_assembler_inside_window :
  rate_assembler (Fixture.collaborators true) 2 28e-12 10 20 15 k0 tt
  = (Ok Fixture.stimulated_rates, tt).
Proof. vm_compute. reflexivity. Qed.

(** ** The initial charge *)

(** C3: the impermeant charge of each compartment is set from the other
    four concentrations and the resting residual, with [- res_i] inside the
    cell and [+ res_e] outside; these are the components 16 to 19 of the
    initial vector and what the initial cell is constructed with.  The
    total charge of a compartment at [t = 0] is then its residual weighted
    by its volume, [res_i] inside and [- res_e] outside, within a relative
    tolerance of [1e-12] of the binary64 operations: the charge of the
    membrane capacitor, [-68e-3*3e-2*616e-12] coulomb inside and its
    opposite outside. *)
Theorem impermeant_charge_balances_initial_state :
  X_si0 = Na_si0 + K_si0 - Cl_si0 + 2 * Ca_si0 - res_i
  /\ X_di0 = Na_di0 + K_di0 - Cl_di0 + 2 * Ca_di0 - res_i
  /\ X_se0 = Na_se0 + K_se0 - Cl_se0 + 2 * Ca_se0 + res_e
  /\ X_de0 = Na_de0 + K_de0 - Cl_de0 + 2 * Ca_de0 + res_e
  /\ (nth_error k0 16 = Some X_si0 /\ nth_error k0 17 = Some X_se0
      /\ nth_error k0 18 = Some X_di0 /\ nth_error k0 19 = Some X_de0)
  /\ (forall (Cell : Type) (alpha : float) (cp : Var.compartment),
        passed (Var.conc Var.X cp) (init_cell_call (Cell := Cell) alpha)
        = Some (match cp with
                | Var.si => X_si0 | Var.se => X_se0
                | Var.di => X_di0 | Var.de => X_de0
                end))
  /\ within_tolerance
       (charge_of Faraday [Na_si0; K_si0; Cl_si0; Ca_si0; X_si0] V_i)
       (baseline_charge res_i V_i) = true
  /\ within_tolerance
       (charge_of Faraday [Na_di0; K_di0; Cl_di0; Ca_di0; X_di0] V_i)
       (baseline_charge res_i V_i) = true
  /\ within_tolerance
       (charge_of Faraday [Na_se0; K_se0; Cl_se0; Ca_se0; X_se0] V_e)
       (baseline_charge (- res_e) V_e) = true
  /\ within_tolerance
       (charge_of Faraday [Na_de0; K_de0; Cl_de0; Ca_de0; X_de0] V_e)
       (baseline_charge (- res_e) V_e) = true
  /\ within_tolerance (baseline_charge res_i V_i) (-68e-3*3e-2*616e-12) = true
  /\ within_tolerance (baseline_charge (- res_e) V_e) (68e-3*3e-2*616e-12) = true.
Proof.
  do 4 (split; [reflexivity |]).
  split; [repeat split; reflexivity |].
  split; [intros Cell alpha cp; destruct cp; reflexivity |].
  repeat split; vm_compute; reflexivity.
Qed.

(** ** A stimulus of no width or of no magnitude *)

Lemma Prim2SF_zero : Prim2SF 0 = S754_zero false.
Proof. vm_compute. reflexivity. Qed.

Lemma Prim2SF_infinity : Prim2SF infinity = S754_infinity false.
Proof. vm_compute. reflexivity. Qed.

Lemma SFcompare_refl (x : spec_float) : x <> S754_nan -> SFcompare x x = Some Eq.
Proof.
  destruct x as [sx | sx | | sx mx ex]; simpl; intros Hx.
  - reflexivity.
  - destruct sx; reflexivity.
  - contradiction.
  - destruct sx; rewrite Z.compare_refl, Pos.compare_cont_refl; reflexivity.
Qed.

(** A float that compares equal to zero is a zero. *)
Lemma zero_of_eqb (x : float) :
  (x =? 0) = true -> exists s, Prim2SF x = S754_zero s.
Proof.
  rewrite FloatAxioms.eqb_spec, Prim2SF_zero. unfold SFeqb.
  destruct (Prim2SF x) as [sx | sx | | sx mx ex]; simpl.
  - intros _. exists sx. reflexivity.
  - destruct sx; discriminate.
  - discriminate.
  - destruct sx; discriminate.
Qed.

(** A finite float is a zero or a finite number. *)
Lemma finite_cases (g : float) :
  is_finite g = true ->
  (exists s, Prim2SF g = S754_zero s) \/ (exists s m e, Prim2SF g = S754_finite s m e).
Proof.
  unfold is_finite, is_nan, is_infinity.
  rewrite !FloatAxioms.eqb_spec, abs_spec, Prim2SF_infinity. unfold SFeqb.
  destruct (Prim2SF g) as [sg | sg | | sg mg eg]; simpl.
  - intros _. left. exists sg. reflexivity.
  - destruct sg; discriminate.
  - discriminate.
  - intros _. right. exists sg, mg, eg. reflexivity.
Qed.

(** A current of magnitude zero, scaled, is a zero. *)
Lemma zero_scaled (x : float) (s : scaling) :
  (x =? 0) = true -> well_scaled s = true -> exists sg, Prim2SF (scaled x s) = S754_zero sg.
Proof.
  intros Hx Hs. destruct (zero_of_eqb x Hx) as [sx Hsx].
  destruct s as [g | d]; simpl in *.
  - rewrite mul_spec, Hsx. unfold SF64mul.
    destruct (finite_cases g Hs) as [[sg ->] | (sg & mg & eg & ->)]; simpl;
      eexists; reflexivity.
  - rewrite div_spec, Hsx. unfold SF64div.
    apply andb_prop in Hs. destruct Hs as [Hnan Hzero].
    unfold is_nan in Hnan.
    rewrite FloatAxioms.eqb_spec in Hnan. rewrite FloatAxioms.eqb_spec in Hzero.
    rewrite Prim2SF_zero in Hzero. unfold SFeqb in Hnan, Hzero.
    destruct (Prim2SF d) as [sd | sd | | sd md ed]; simpl in *;
      try discriminate; eexists; reflexivity.
Qed.

(** Adding a zero to a float, or subtracting one from it, gives the same
    number. *)
Lemma plus_zero_same (a z : float) (s : bool) :
  Prim2SF z = S754_zero s -> same_number (a + z) a = true.
Proof.
  intros Hz. unfold same_number, is_nan.
  rewrite !FloatAxioms.eqb_spec, add_spec, Hz. unfold SF64add, SFeqb.
  destruct (Prim2SF a) as [sa | sa | | sa ma ea] eqn:Ha.
  - destruct sa, s; reflexivity.
  - destruct sa; reflexivity.
  - reflexivity.
  - cbn [SFadd].
    rewrite (SFcompare_refl (S754_finite sa ma ea)) by discriminate. reflexivity.
Qed.

Lemma minus_zero_same (a z : float) (s : bool) :
  Prim2SF z = S754_zero s -> same_number (a - z) a = true.
Proof.
  intros Hz. unfold same_number, is_nan.
  rewrite !FloatAxioms.eqb_spec, sub_spec, Hz. unfold SF64sub, SFeqb.
  destruct (Prim2SF a) as [sa | sa | | sa ma ea] eqn:Ha.
  - destruct sa, s; reflexivity.
  - destruct sa; reflexivity.
  - reflexivity.
  - cbn [SFsub].
    rewrite (SFcompare_refl (S754_finite sa ma ea)) by discriminate. reflexivity.
Qed.

(** The same number need not be the same float: a current of magnitude
    zero turns a rate of [-0.0] into [0.0]. *)
Example zero_current_loses_sign_of_zero :
  same_number (-0 + scaled 0 (Times 1)) (-0) = true
  /\ Prim2SF (-0 + scaled 0 (Times 1)) <> Prim2SF (-0).
Proof. split; [vm_compute; reflexivity | vm_compute; discriminate]. Qed.

Section NoStimulus.

Variable Cell : Type.
Variable OdeResult : Type.
Variable sol_y : OdeResult -> list (list float).
Variable W : Type.

(** With an empty window the rate function is the unstimulated one, as a
    function. *)
Lemma dkdt_is_unstimulated (alpha I_stim stim_start stim_end : float) :
  (forall t, (t >? stim_start) && (t <? stim_end) = false) ->
  dkdt (Cell := Cell) alpha I_stim stim_start stim_end
  = fun _ k => dkdt_unstimulated alpha k.
Proof.
  intros Hempty. extensionality t. extensionality k.
  apply dkdt_outside_window. apply Hempty.
Qed.

(** With a stimulus of magnitude zero and an additive injector, an
    evaluation has the outcome of the unstimulated one. *)
Lemma dkdt_zero_magnitude (h : handler (model_call Cell) W)
    (scale_i scale_e : Cell -> scaling)
    (alpha I_stim stim_start stim_end t : float) (k : list float) (w : W) :
  (I_stim =? 0) = true ->
  additive_injector h scale_i scale_e ->
  (forall cell, well_scaled (scale_i cell) = true /\ well_scaled (scale_e cell) = true) ->
  same_outcome (run h (dkdt alpha I_stim stim_start stim_end t k) w)
    (run h (dkdt_unstimulated alpha k) w).
Proof.
  intros Hzero Hadd Hscaled.
  rewrite run_dkdt, run_dkdt_unstimulated.
  destruct (run h (snapshot alpha k) w) as [[cell | e] w1];
    [| apply same_outcome_refl].
  destruct (h _ (cell_dkdt cell) w1) as [[r | e] w2]; [| apply same_outcome_refl].
  destruct (h _ (cell_dmdt cell) w2) as [[m | e] w3]; [| apply same_outcome_refl].
  destruct ((t >? stim_start) && (t <? stim_end)); [| apply same_outcome_refl].
  rewrite Hadd.
  destruct (Hscaled cell) as [Hi He].
  destruct (zero_scaled I_stim _ Hzero Hi) as [si Hsi].
  destruct (zero_scaled I_stim _ Hzero He) as [se Hse].
  pose proof (plus_zero_same (fst (somatic_K r)) _ si Hsi) as Ha.
  pose proof (minus_zero_same (snd (somatic_K r)) _ se Hse) as Hb.
  untuple. split; [reflexivity |]. simpl in *.
  repeat (constructor; try apply same_number_refl; try assumption).
Qed.

(** C4: when [stim_start == stim_end], every evaluation is the evaluation
    with the stimulus disabled, call for call, and the driver is the run
    with the stimulus disabled: the integrator is handed the same function,
    so that the trajectory is the same whatever the integrator.  When
    [I_stim] is zero and the injector adds the current, scaled, to one rate
    and subtracts it, scaled, from the other, every evaluation has the
    outcome of the evaluation with the stimulus disabled: the same error,
    or the same numbers in the same world; and with an integrator that
    reads the rates as numbers the driver is the run with the stimulus
    disabled: the trajectory is the same. *)
Theorem no_stimulus_without_window_or_magnitude
    (hd : handler (driver_call Cell OdeResult) W)
    (scale_i scale_e : Cell -> scaling)
    (t_dur alpha I_stim stim_start stim_end : float) :
  ((stim_start =? stim_end) = true ->
   (forall t k,
      dkdt (Cell := Cell) alpha I_stim stim_start stim_end t k = dkdt_unstimulated alpha k)
   /\ (forall w,
         run hd (solve_EDPRmodel sol_y t_dur alpha I_stim stim_start stim_end) w
         = run hd (unstimulated_run sol_y t_dur alpha) w))
  /\ ((I_stim =? 0) = true ->
      additive_injector (model_part hd) scale_i scale_e ->
      (forall cell, well_scaled (scale_i cell) = true
                    /\ well_scaled (scale_e cell) = true) ->
      (forall t k w,
         same_outcome (run (model_part hd) (dkdt alpha I_stim stim_start stim_end t k) w)
           (run (model_part hd) (dkdt_unstimulated alpha k) w))
      /\ (reads_rates hd ->
          forall w,
            run hd (solve_EDPRmodel sol_y t_dur alpha I_stim stim_start stim_end) w
            = run hd (unstimulated_run sol_y t_dur alpha) w)).
Proof.
  split.
  - intros Heq. split.
    + intros t k. apply dkdt_outside_window. apply empty_window. exact Heq.
    + intros w. rewrite run_solve_EDPRmodel. unfold unstimulated_run.
      rewrite run_bind.
      rewrite (dkdt_is_unstimulated alpha I_stim stim_start stim_end
                 (fun t => empty_window _ _ t Heq)).
      destruct (run hd (initial_values alpha) w) as [[[] | e] w1]; reflexivity.
  - intros Hzero Hadd Hscaled. split.
    + intros t k w. exact (dkdt_zero_magnitude _ _ _ _ _ _ _ _ _ _ Hzero Hadd Hscaled).
    + intros Hreads w. rewrite run_solve_EDPRmodel. unfold unstimulated_run.
      rewrite run_bind.
      destruct (run hd (initial_values alpha) w) as [[[] | e] w1]; [| reflexivity].
      unfold integrate. simpl.
      rewrite (Hreads (dkdt alpha I_stim stim_start stim_end)
                 (fun _ k => dkdt_unstimulated alpha k)).
      * reflexivity.
      * intros t k w'.
        exact (dkdt_zero_magnitude _ _ _ _ _ _ _ _ _ _ Hzero Hadd Hscaled).
Qed.

(** The constants of the driver are physical. *)
Lemma init_cell_nonphysical_iff (alpha : float) :
  nonphysical (init_cell_call (Cell := Cell) alpha) = (alpha <=? 0).
Proof.
  unfold nonphysical, init_cell_call.
  change (T <=? 0) with false.
  change (existsb (fun x => x <? 0)
            [Na_si0; Na_se0; Na_di0; Na_de0; K_si0; K_se0; K_di0; K_de0;
             Cl_si0; Cl_se0; Cl_di0; Cl_de0; Ca_si0; Ca_se0; Ca_di0; Ca_de0;
             X_si0; X_se0; X_di0; X_de0]) with false.
  destruct (alpha <=? 0); reflexivity.
Qed.

(** With a constructor that rejects non-physical inputs, so does every
    constructor call of a rate evaluation. *)
Lemma snapshot_rejected (h : handler (driver_call Cell OdeResult) W)
    (alpha : float) (k : list float) (w : W) :
  rejects_nonphysical h ->
  List.length k = 26%nat ->
  (alpha <=? 0) = true \/ existsb (fun x => x <? 0) (firstn 20 k) = true ->
  exists w', run (model_part h) (snapshot alpha k) w = (Err ParameterValidityError, w').
Proof.
  intros Hrej Hlen Hbad. unpack k.
  match goal with
  | |- context [EDPRmodel ?a0 ?a1 ?a2 ?a3 ?a4 ?a5 ?a6 ?a7 ?a8 ?a9 ?a10 ?a11
                  ?a12 ?a13 ?a14 ?a15 ?a16 ?a17 ?a18 ?a19 ?a20 ?a21 ?a22 ?a23
                  ?a24 ?a25 ?a26 ?a27 ?a28 ?a29] =>
      assert (Hc : nonphysical
                     (EDPRmodel (Cell := Cell) a0 a1 a2 a3 a4 a5 a6 a7 a8 a9
                        a10 a11 a12 a13 a14 a15 a16 a17 a18 a19 a20 a21 a22
                        a23 a24 a25 a26 a27 a28 a29) = true)
  end.
  { unfold nonphysical. destruct Hbad as [Ha | Hk].
    - rewrite Ha, orb_true_r. reflexivity.
    - cbn [existsb firstn] in Hk |- *. rewrite Hk. apply orb_true_r. }
  destruct (Hrej _ w Hc) as [w' Hw']. exists w'.
  unfold run, call, model_part. rewrite Hw'. reflexivity.
Qed.


End NoStimulus.

(** ** The instance with the additive injector *)

Lemma Prim2SF_eq (x y : float) : Prim2SF x = Prim2SF y -> x = y.
Proof.
  intros H. rewrite <- (SF2Prim_Prim2SF x), <- (SF2Prim_Prim2SF y), H. reflexivity.
Qed.

(** A float whose specification is a zero compares equal to zero. *)
Lemma eqb_zero_of_zero (x : float) (s : bool) :
  Prim2SF x = S754_zero s -> (x =? 0) = true.
Proof.
  intros Hx. rewrite FloatAxioms.eqb_spec, Hx, Prim2SF_zero. reflexivity.
Qed.

(** Two specifications that compare equal are the same, or they are
    zeros. *)
Lemma SFeqb_cases (u v : spec_float) :
  SFeqb u v = true ->
  u = v \/ exists s s', u = S754_zero s /\ v = S754_zero s'.
Proof.
  unfold SFeqb.
  destruct u as [sx | sx | | sx mx ex]; destruct v as [sy | sy | | sy my ey];
    simpl; intros H.
  all: try (right; eexists; eexists; split; reflexivity).
  all: try discriminate H.
  all: try (destruct sx; discriminate H).
  all: try (destruct sy; discriminate H).
  - left. destruct sx, sy; try discriminate H; reflexivity.
  - left. destruct sx, sy; try discriminate H;
      destruct (Z.compare ex ey) eqn:He; try discriminate H;
      apply Z.compare_eq in He; subst ey;
      destruct (Pos.compare_cont Eq mx my) eqn:Hm; try discriminate H;
      apply Pos.compare_eq in Hm; subst my; reflexivity.
Qed.

(** Two floats that are the same number are the same float, or they are
    zeros. *)
Lemma same_number_cases (x y : float) :
  same_number x y = true ->
  x = y \/ exists s s', Prim2SF x = S754_zero s /\ Prim2SF y = S754_zero s'.
Proof.
  unfold same_number. intros H. apply orb_prop in H. destruct H as [H | H].
  - rewrite FloatAxioms.eqb_spec in H.
    destruct (SFeqb_cases _ _ H) as [Heq | Hz];
      [left; apply Prim2SF_eq; exact Heq | right; exact Hz].
  - left. apply andb_prop in H. destruct H as [Hx Hy].
    unfold is_nan in *. rewrite FloatAxioms.eqb_spec in Hx, Hy.
    apply Prim2SF_eq.
    assert (Hnan : forall u, negb (SFeqb u u) = true -> u = S754_nan).
    { intros u. unfold SFeqb. destruct u as [s | s | | s m e]; simpl; try reflexivity.
      - discriminate.
      - destruct s; discriminate.
      - destruct s; rewrite Z.compare_refl, Pos.compare_cont_refl; discriminate. }
    rewrite (Hnan _ Hx), (Hnan _ Hy). reflexivity.
Qed.

Lemma canonical_plus_zero (y z z' : float) (s s' : bool) :
  Prim2SF z = S754_zero s -> Prim2SF z' = S754_zero s' ->
  AdditiveFixture.canonical (y + z) = AdditiveFixture.canonical (y + z').
Proof.
  intros Hz Hz'. unfold AdditiveFixture.canonical.
  destruct (Prim2SF y) as [sy | sy | | sy my ey] eqn:Hy.
  - assert (H1 : exists s1, Prim2SF (y + z) = S754_zero s1).
    { rewrite add_spec, Hy, Hz. unfold SF64add. simpl.
      destruct sy, s; eexists; reflexivity. }
    assert (H2 : exists s2, Prim2SF (y + z') = S754_zero s2).
    { rewrite add_spec, Hy, Hz'. unfold SF64add. simpl.
      destruct sy, s'; eexists; reflexivity. }
    destruct H1 as [s1 H1]. destruct H2 as [s2 H2].
    rewrite (eqb_zero_of_zero _ _ H1), (eqb_zero_of_zero _ _ H2). reflexivity.
  - replace (y + z') with (y + z); [reflexivity |].
    apply Prim2SF_eq. rewrite !add_spec, Hy, Hz, Hz'. reflexivity.
  - replace (y + z') with (y + z); [reflexivity |].
    apply Prim2SF_eq. rewrite !add_spec, Hy, Hz, Hz'. reflexivity.
  - replace (y + z') with (y + z); [reflexivity |].
    apply Prim2SF_eq. rewrite !add_spec, Hy, Hz, Hz'. reflexivity.
Qed.

(** The Euler step of the instance reads a rate as a number. *)
Lemma canonical_step (y m x x' : float) :
  same_number x x' = true ->
  AdditiveFixture.canonical (y + m * x) = AdditiveFixture.canonical (y + m * x').
Proof.
  intros Hsame.
  destruct (same_number_cases x x' Hsame) as [-> | (s & s' & Hx & Hx')];
    [reflexivity |].
  destruct (Prim2SF m) as [sm | sm | | sm mm em] eqn:Hm.
  - apply (canonical_plus_zero y _ _ (xorb sm s) (xorb sm s'));
      rewrite mul_spec, Hm; [rewrite Hx | rewrite Hx']; reflexivity.
  - replace (m * x') with (m * x); [reflexivity |].
    apply Prim2SF_eq. rewrite !mul_spec, Hm, Hx, Hx'. reflexivity.
  - replace (m * x') with (m * x); [reflexivity |].
    apply Prim2SF_eq. rewrite !mul_spec, Hm, Hx, Hx'. reflexivity.
  - apply (canonical_plus_zero y _ _ (xorb sm s) (xorb sm s'));
      rewrite mul_spec, Hm; [rewrite Hx | rewrite Hx']; reflexivity.
Qed.

Lemma euler_rows_same (m : float) (dy dy' : list float) :
  Forall2 (fun x y => same_number x y = true) dy dy' ->
  forall y0,
    map (fun yd => [fst yd; AdditiveFixture.canonical (fst yd + m * snd yd)]) (combine y0 dy)
    = map (fun yd => [fst yd; AdditiveFixture.canonical (fst yd + m * snd yd)]) (combine y0 dy').
Proof.
  induction 1 as [| x x' dy dy' Hx Hrest IH]; intros y0.
  - reflexivity.
  - destruct y0 as [| y y0]; [reflexivity |]. simpl.
    rewrite (canonical_step y m x x' Hx), IH. reflexivity.
Qed.

Lemma additive_fixture_injector :
  additive_injector (model_part AdditiveFixture.environment)
    AdditiveFixture.scale_i AdditiveFixture.scale_e.
Proof. intros neuron a b I_stim []. reflexivity. Qed.

Lemma additive_fixture_well_scaled (cell : Fixture.Cell) :
  well_scaled (AdditiveFixture.scale_i cell) = true
  /\ well_scaled (AdditiveFixture.scale_e cell) = true.
Proof. split; vm_compute; reflexivity. Qed.

Lemma additive_fixture_reads_rates : reads_rates AdditiveFixture.environment.
Proof.
  intros f g t_span y0 max_step [] Hsame. simpl. f_equal.
  unfold AdditiveFixture.euler_step.
  specialize (Hsame (fst t_span) y0 tt).
  change (model_part AdditiveFixture.environment)
    with AdditiveFixture.collaborators in Hsame.
  destruct (run AdditiveFixture.collaborators (f (fst t_span) y0) tt) as [[dy | e] w1];
    destruct (run AdditiveFixture.collaborators (g (fst t_span) y0) tt) as [[dy' | e'] w2];
    destruct Hsame as [_ Hsame]; simpl in *; try contradiction.
  - rewrite (euler_rows_same max_step dy dy' Hsame). reflexivity.
  - subst e'. reflexivity.
Qed.

(** On the instance: the empty window [(10, 10)], and a stimulus of
    magnitude zero in the window [(10, 20)], at [t = 15] and for the whole
    simulation. *)
Lemma no_stimulus_without_window_or_magnitude_on_fixture :
  (dkdt (Cell := Fixture.Cell) 2 28e-12 10 10 10 k0 = dkdt_unstimulated 2 k0
   /\ run AdditiveFixture.environment (solve_EDPRmodel Fixture.sol_y 30 2 28e-12 10 10) tt
      = run AdditiveFixture.environment (unstimulated_run Fixture.sol_y 30 2) tt)
  /\ same_outcome
       (run (model_part AdditiveFixture.environment) (dkdt 2 0 10 20 15 k0) tt)
       (run (model_part AdditiveFixture.environment) (dkdt_unstimulated 2 k0) tt)
  /\ run AdditiveFixture.environment (solve_EDPRmodel Fixture.sol_y 30 2 0 10 20) tt
     = run AdditiveFixture.environment (unstimulated_run Fixture.sol_y 30 2) tt.
Proof.
  split.
  - destruct (proj1 (no_stimulus_without_window_or_magnitude
                       Fixture.Cell Fixture.OdeResult Fixture.sol_y unit
                       AdditiveFixture.environment
                       AdditiveFixture.scale_i AdditiveFixture.scale_e 30 2 28e-12 10 10)
                eq_refl) as [H1 H2].
    split; [exact (H1 10 k0) | exact (H2 tt)].
  - destruct (proj2 (no_stimulus_without_window_or_magnitude
                       Fixture.Cell Fixture.OdeResult Fixture.sol_y unit
                       AdditiveFixture.environment
                       AdditiveFixture.scale_i AdditiveFixture.scale_e 30 2 0 10 20)
                eq_refl additive_fixture_injector additive_fixture_well_scaled)
      as [H1 H2].
    split; [exact (H1 15 k0 tt) | exact (H2 additive_fixture_reads_rates tt)].
Defined.

(** On the instance the run with a stimulus of magnitude zero in the window
    [(10, 20)] returns a solution, and so does the unstimulated one. *)
Example additive_fixture_runs :
  (exists sol, run AdditiveFixture.environment
                 (solve_EDPRmodel Fixture.sol_y 30 2 0 10 20) tt = (Ok sol, tt))
  /\ exists sol, run AdditiveFixture.environment
                   (unstimulated_run Fixture.sol_y 30 2) tt = (Ok sol, tt).
Proof. split; eexists; vm_compute; reflexivity. Qed.


(** ** Determinism and statelessness of the rate function *)

Section Statelessness.

Variable Cell : Type.
Variable W : Type.
Variable h : handler (model_call Cell) W.
Variables alpha I_stim stim_start stim_end : float.

Ltac next_answer :=
  match goal with
  | |- context [h ?X ?c ?w] => destruct (h X c w) as [[? | ?] ?]
  end; cbv beta iota.

Ltac split_tuples :=
  repeat match goal with x : (_ * _)%type |- _ => destruct x end; cbv beta iota.

(** The statements of [dkdt], executed on a store, compute what the rate
    function of the driver computes, make the same calls in the same order,
    and leave the store as it was: whatever the collaborators do, and also
    when the evaluation ends in an error. *)
Lemma evaluate_dkdt (t : float) (a : nat) (hp : nat -> list float) (w : W) :
  Python.evaluate h Python.dkdt_def [Python.VFloat t; Python.VRef a]
    (Python.shared_state alpha I_stim stim_start stim_end hp) w
  = (Python.returned (fst (run h (dkdt alpha I_stim stim_start stim_end t (hp a)) w)),
     Python.shared_state alpha I_stim stim_start stim_end hp,
     snd (run h (dkdt alpha I_stim stim_start stim_end t (hp a)) w)).
Proof.
  remember (hp a) as k eqn:Hk.
  do 27 (try (destruct k as [| ? k]));
    vm_compute; rewrite <- Hk; vm_compute; try reflexivity.
  next_answer; [| reflexivity].
  next_answer; [| reflexivity]. split_tuples.
  next_answer; [| reflexivity]. split_tuples.
  destruct (PrimFloat.ltb stim_start t); cbv beta iota; [| reflexivity].
  destruct (PrimFloat.ltb t stim_end); cbv beta iota; [| reflexivity].
  next_answer; [| reflexivity]. split_tuples.
  reflexivity.
Qed.

(** C9: the rate function is deterministic and stateless.  An evaluation
    of the statements of [dkdt] on a store returns what the rate function
    returns and leaves the store as it was: the state vector on the heap
    and the variables that the closure shares are not changed, whatever
    the collaborators do.  With collaborators that are pure, in any
    sequence of evaluations (any order, any number of repetitions) each
    evaluation has the outcome that it has alone, the store and the world
    are left as they were, and two evaluations with the same time and the
    same state vector, wherever it lies and in whichever world, have the
    same outcome. *)
Theorem dkdt_deterministic_and_stateless :
  (forall t a hp w,
     Python.evaluate h Python.dkdt_def [Python.VFloat t; Python.VRef a]
       (Python.shared_state alpha I_stim stim_start stim_end hp) w
     = (Python.returned (fst (run h (dkdt alpha I_stim stim_start stim_end t (hp a)) w)),
        Python.shared_state alpha I_stim stim_start stim_end hp,
        snd (run h (dkdt alpha I_stim stim_start stim_end t (hp a)) w)))
  /\ (pure_handler h ->
      (forall calls hp w w0,
         Python.evaluate_all h Python.dkdt_def calls
           (Python.shared_state alpha I_stim stim_start stim_end hp) w
         = (map (fun c =>
                   Python.returned
                     (fst (run h (dkdt alpha I_stim stim_start stim_end
                                    (fst c) (hp (snd c))) w0)))
              calls,
            Python.shared_state alpha I_stim stim_start stim_end hp, w))
      /\ (forall t a1 a2 hp1 hp2 w1 w2,
            hp1 a1 = hp2 a2 ->
            fst (fst (Python.evaluate h Python.dkdt_def [Python.VFloat t; Python.VRef a1]
                        (Python.shared_state alpha I_stim stim_start stim_end hp1) w1))
            = fst (fst (Python.evaluate h Python.dkdt_def
                          [Python.VFloat t; Python.VRef a2]
                          (Python.shared_state alpha I_stim stim_start stim_end hp2) w2)))).
Proof.
  split; [exact evaluate_dkdt |].
  intros Hpure. split.
  - intros calls hp w w0. induction calls as [| [t a] rest IH].
    + reflexivity.
    + cbn [Python.evaluate_all map fst snd].
      rewrite evaluate_dkdt.
      destruct (run_pure _ _ h _ (dkdt alpha I_stim stim_start stim_end t (hp a)) Hpure)
        as [r Hr].
      rewrite (Hr w), (Hr w0). cbn [fst snd]. rewrite IH. reflexivity.
  - intros t a1 a2 hp1 hp2 w1 w2 Hk. rewrite !evaluate_dkdt. cbn [fst]. rewrite Hk.
    destruct (run_pure _ _ h _ (dkdt alpha I_stim stim_start stim_end t (hp2 a2)) Hpure)
      as [r Hr].
    rewrite (Hr w1), (Hr w2). reflexivity.
Qed.

End Statelessness.

(** On the instance: three evaluations in a row on a heap that holds the
    initial state at every address, the first and the last at [t = 15]. *)
Lemma dkdt_deterministic_and_stateless_on_fixture :
  Python.evaluate (Fixture.collaborators true) Python.dkdt_def
    [Python.VFloat 15; Python.VRef 0]
    (Python.shared_state 2 28e-12 10 20 (fun _ => k0)) tt
  = (Python.returned
       (fst (run (Fixture.collaborators true) (dkdt 2 28e-12 10 20 15 k0) tt)),
     Python.shared_state 2 28e-12 10 20 (fun _ => k0),
     snd (run (Fixture.collaborators true) (dkdt 2 28e-12 10 20 15 k0) tt))
  /\ Python.evaluate_all (Fixture.collaborators true) Python.dkdt_def
       [(15, 0%nat); (5, 1%nat); (15, 2%nat)]
       (Python.shared_state 2 28e-12 10 20 (fun _ => k0)) tt
     = (map (fun c =>
               Python.returned
                 (fst (run (Fixture.collaborators true)
                         (dkdt 2 28e-12 10 20 (fst c) k0) tt)))
          [(15, 0%nat); (5, 1%nat); (15, 2%nat)],
        Python.shared_state 2 28e-12 10 20 (fun _ => k0), tt)
  /\ fst (fst (Python.evaluate (Fixture.collaborators true) Python.dkdt_def
                 [Python.VFloat 15; Python.VRef 0]
                 (Python.shared_state 2 28e-12 10 20 (fun _ => k0)) tt))
     = fst (fst (Python.evaluate (Fixture.collaborators true) Python.dkdt_def
                   [Python.VFloat 15; Python.VRef 7]
                   (Python.shared_state 2 28e-12 10 20
                      (fun a => if Nat.eqb a 7 then k0 else [])) tt)).
Proof.
  split; [| split].
  - exact (proj1 (dkdt_deterministic_and_stateless
                    Fixture.Cell unit (Fixture.collaborators true) 2 28e-12 10 20)
             15 0%nat (fun _ => k0) tt).
  - exact (proj1 (proj2 (dkdt_deterministic_and_stateless
                           Fixture.Cell unit (Fixture.collaborators true) 2 28e-12 10 20)
                    (fixture_collaborators_pure true))
             [(15, 0%nat); (5, 1%nat); (15, 2%nat)] (fun _ => k0) tt tt).
  - exact (proj2 (proj2 (dkdt_deterministic_and_stateless
                           Fixture.Cell unit (Fixture.collaborators true) 2 28e-12 10 20)
                    (fixture_collaborators_pure true))
             15 0%nat 7%nat (fun _ => k0) (fun a => if Nat.eqb a 7 then k0 else [])
             tt tt eq_refl).
Defined.

(** On the instance the evaluation at [t = 15] returns the stimulated
    rates. *)
Example evaluate_dkdt_at_15 :
  fst (fst (Python.evaluate (Fixture.collaborators true) Python.dkdt_def
              [Python.VFloat 15; Python.VRef 0]
              (Python.shared_state 2 28e-12 10 20 (fun _ => k0)) tt))
  = Ok (Python.VTuple (map Python.VFloat Fixture.stimulated_rates)).
Proof. vm_compute. reflexivity. Qed.

(** The store does record a change when a function makes one: a function
    that assigns to an element of its argument changes the state vector on
    the heap, and a function that assigns to a name that it declares
    nonlocal changes the variable that the closure shares. *)
Example assignments_change_the_store :
  Python.heap
    (snd (fst (Python.evaluate (Fixture.collaborators true)
                 {| Python.params := ["t"; "k"];
                    Python.nonlocals := [];
                    Python.body := [Python.SetItem "k" 4 (Python.Const 0)] |}
                 [Python.VFloat 15; Python.VRef 0]
                 (Python.shared_state 2 28e-12 10 20 (fun _ => k0)) tt))) 0
  = update k0 4 0
  /\ Python.cells
       (snd (fst (Python.evaluate (Fixture.collaborators true)
                    {| Python.params := ["t"; "k"];
                       Python.nonlocals := ["alpha"];
                       Python.body :=
                         [Python.Assign "alpha" (Python.Value (Python.Const 3))] |}
                    [Python.VFloat 15; Python.VRef 0]
                    (Python.shared_state 2 28e-12 10 20 (fun _ => k0)) tt)))
     = Python.closure 3 28e-12 10 20.
Proof. split; vm_compute; reflexivity. Qed.
